(** * pixi-build-tools: the rollup configuration assembler and the
    api-extractor runner for lerna monorepos

    Both scripts are modelled as pure functions of their inputs and of a
    [Host] record that stands for what they read from Node (the working
    directory, the filesystem, [path], the environment, the clock) and
    from the third-party tools they drive.  JavaScript objects that are
    handled as bags of keys (output descriptors, the manifest copies the
    runner annotates) are finite maps from property names to [jsval]. *)

From Stdlib Require Import Ascii String.
From stdpp Require Import gmap strings list pretty.

(** ** JavaScript values and strings *)

(** The values of a JSON document, and [undefined].  A number is held
    as the text JavaScript prints for it ([String(x)]: [8080], [0.5],
    [1e+21]), which determines it. *)
#[warnings="-register-all"] Inductive jsval :=
  | JUndefined
  | JNull
  | JBool (b : bool)
  | JNum (text : string)
  | JStr (s : string)
  | JArr (l : list jsval)
  | JObj (m : gmap string jsval).

(** Property read [o.k]: a missing property reads as [undefined]. *)
Definition prop (o : gmap string jsval) (k : string) : jsval :=
  default JUndefined (o !! k).

(** [Object.assign(target, source)] with [source] possibly [undefined]:
    the own properties of [source] win. *)
Definition Object_assign (target : gmap string jsval)
    (source : option (gmap string jsval)) : gmap string jsval :=
  match source with
  | Some src => src ∪ target
  | None => target
  end.

Definition nl : string := String (Ascii.ascii_of_nat 10) EmptyString.

(** [lines.join('\n')] *)
Fixpoint join_lines (lines : list string) : string :=
  match lines with
  | [] => ""
  | [l] => l
  | l :: rest => l +:+ nl +:+ join_lines rest
  end.

(** [s.replace(/GMT/g, 'UTC')] *)
Fixpoint replace_GMT (s : string) : string :=
  match s with
  | String "G" (String "M" (String "T" rest)) => "UTC" +:+ replace_GMT rest
  | String c rest => String c (replace_GMT rest)
  | EmptyString => EmptyString
  end.

Definition is_lower (c : ascii) : bool :=
  let n := Ascii.nat_of_ascii c in (97 <=? n)%nat && (n <=? 122)%nat.

(** [s.replace(/[^a-z]+/g, '_')]: every maximal run of characters outside
    a-z becomes one underscore.  [in_run] tells that the previous
    character already belonged to the run being replaced. *)
Fixpoint replace_non_lower (in_run : bool) (s : string) : string :=
  match s with
  | EmptyString => EmptyString
  | String c rest =>
      if is_lower c then String c (replace_non_lower false rest)
      else if in_run then replace_non_lower true rest
      else String "_" (replace_non_lower true rest)
  end.

(** [s.replace(/\.js$/, '.min.js')]: [$] only matches at the end of the
    input, so the only possible match is a suffix. *)
Fixpoint replace_js_suffix (s : string) : string :=
  match s with
  | EmptyString => EmptyString
  | String c rest =>
      if String.eqb s ".js" then ".min.js" else String c (replace_js_suffix rest)
  end.

(** [s.includes('.')] *)
Fixpoint includes_dot (s : string) : bool :=
  match s with
  | EmptyString => false
  | String c rest => if Ascii.eqb c "." then true else includes_dot rest
  end.

(** [s.split('.')[0]] *)
Fixpoint before_dot (s : string) : string :=
  match s with
  | EmptyString => EmptyString
  | String c rest => if Ascii.eqb c "." then EmptyString else String c (before_dot rest)
  end.

(** The value of a string-valued expression when it is truthy. *)
Definition truthy (o : option string) : option string :=
  match o with
  | Some s => if String.eqb s "" then None else Some s
  | None => None
  end.

(** [a || b] on optional strings. *)
Definition js_or (a b : option string) : option string :=
  match truthy a with
  | Some s => Some s
  | None => b
  end.

(** Functions that throw. *)
Inductive Result (A : Type) :=
  | Ok (a : A)
  | Throw (msg : string).
Arguments Ok {A} a.
Arguments Throw {A} msg.

(** [path.join] on two clean POSIX segments, for the sample projects
    below: the segments are joined with a slash and a leading [./] of the
    second one is dropped. *)
Definition slash_join (a b : string) : string :=
  a +:+ "/" +:+ match b with
                | String "." (String "/" rest) => rest
                | _ => b
                end.

(** ** The rollup configuration assembler *)

Module Rollup.

(** What the script reads from Node and from [@pixi-build-tools/globals]. *)
Record Host := {
  projectFolder : string;                     (* process.cwd() *)
  existsSync : string -> bool;                (* fs.existsSync *)
  path_join : string -> string -> string;     (* path.join, two arguments *)
  NODE_ENV : option string;                   (* process.env.NODE_ENV *)
  toUTCString : string;                       (* (new Date()).toUTCString() *)
  globals : gmap string string;               (* @pixi-build-tools/globals *)
  (* path.join answers '.' rather than a zero-length string *)
  path_join_nonempty : forall a b, path_join a b <> ""
}.

(** package.json, with the fields the assembler reads at their usual
    types.  Dependency tables are listed in [Object.keys] order. *)
Record Manifest := {
  pkg_name : string;
  pkg_version : string;
  pkg_author : string;
  pkg_main : option string;
  pkg_module : option string;
  pkg_bundle : option string;
  pkg_bundleOutput : option (gmap string jsval);
  pkg_bundleNoExports : option bool;
  pkg_namespace : option string;
  pkg_standalone : option bool;
  pkg_peerDependencies : option (list (string * string));
  pkg_dependencies : option (list (string * string))
}.

(** The [options] argument; [None] is a key the caller left out. *)
Record Options := {
  opt_sourcemap : option bool;
  opt_globals : option (gmap string string);
  opt_production : option bool;
  opt_external : option (list string);
  opt_excludedExternals : option (list string);
  opt_main : option string;
  opt_module : option string;
  opt_bundle : option string;
  opt_input : option string
}.

Inductive Plugin :=
  | plugin_sourcemaps
  | plugin_resolve
  | plugin_commonjs
  | plugin_sucrase
  | plugin_string
  | plugin_replace (version : string)
  | plugin_terser.

(** [config.output] is an array in the first configuration and a single
    descriptor in the UMD ones. *)
Inductive Output :=
  | OutputArray (ds : list (gmap string jsval))
  | OutputObject (d : gmap string jsval).

Record Config := {
  plugins : list Plugin;
  external : list string;
  input : string;
  output : Output;
  treeshake : option bool
}.

Section assembler.
Variable h : Host.
Variable options : Options.
Variable pkg : Manifest.

(* Object.assign({ sourcemap: true, globals: {}, production: false }, options) *)
Definition sourcemap : bool := default true (opt_sourcemap options).
Definition options_globals : gmap string string := default ∅ (opt_globals options).
Definition production : bool := default false (opt_production options).

Definition base_plugins : list Plugin :=
  [ plugin_sourcemaps; plugin_resolve; plugin_commonjs; plugin_sucrase;
    plugin_string; plugin_replace (pkg_version pkg) ].

Definition compiled : string := replace_GMT (toUTCString h).

Definition banner : string :=
  join_lines
    [ "/* eslint-disable */";
      " ";
      "/*!";
      " * " +:+ pkg_name pkg +:+ " - v" +:+ pkg_version pkg;
      " * Compiled " +:+ compiled;
      " *";
      " * " +:+ pkg_name pkg +:+ " is licensed under the MIT License.";
      " * http://www.opensource.org/licenses/mit-license";
      " * ";
      " * Copyright 2019-2020, " +:+ pkg_author pkg +:+ ", All Rights Reserved";
      " */" ].

Definition indexTs : string := path_join h (projectFolder h) "src/index.ts".
Definition indexJs : string := path_join h (projectFolder h) "src/index.js".

(** Lines 94-109: the three candidates, each tried only while [input]
    is still falsy. *)
Definition resolve_input : option string :=
  let input := opt_input options in
  let input :=
    match truthy input with
    | Some _ => input
    | None => if existsSync h indexTs then Some indexTs else input
    end in
  let input :=
    match truthy input with
    | Some _ => input
    | None => if existsSync h indexJs then Some indexJs else input
    end in
  truthy input.

Definition keys (deps : option (list (string * string))) : list string :=
  (default [] deps).*1.

(* options.excludedExternals?.includes(x) *)
Definition excluded (x : string) : bool :=
  match opt_excludedExternals options with
  | Some l => bool_decide (x ∈ l)
  | None => false
  end.

Definition externals : list string :=
  List.filter (fun x => negb (excluded x))
    (default [] (opt_external options)
       ++ keys (pkg_peerDependencies pkg)
       ++ keys (pkg_dependencies pkg)).

Definition module_output (format : string) (path : string) : gmap string jsval :=
  {[ "banner" := JStr banner;
     "file" := JStr (path_join h (projectFolder h) path);
     "format" := JStr format;
     "sourcemap" := JBool sourcemap ]}.

(** Lines 127-142: what is pushed on [config.output]. *)
Definition module_outputs : list (gmap string jsval) :=
  match truthy (js_or (opt_main options) (pkg_main pkg)) with
  | Some path => [module_output "cjs" path]
  | None => []
  end ++
  match truthy (js_or (opt_module options) (pkg_module pkg)) with
  | Some path => [module_output "esm" path]
  | None => []
  end.

Definition name : string := replace_non_lower false (pkg_name pkg).
Definition ns : string := default "PIXI" (truthy (pkg_namespace pkg)).
Definition standalone : bool := default false (pkg_standalone pkg).

Definition attach_footer : string :=
  "if (typeof " +:+ name +:+ " !== 'undefined') { Object.assign(this."
    +:+ ns +:+ ", " +:+ name +:+ "); }".

Definition footer : jsval :=
  if standalone then JUndefined
  else match pkg_bundleNoExports pkg with
       | Some true => JUndefined
       | _ => JStr attach_footer
       end.

Definition umd_banner : string :=
  if standalone then banner
  else
    (if includes_dot ns
     then banner +:+ nl +:+ "this." +:+ before_dot ns +:+ " = this."
            +:+ before_dot ns +:+ " || {};"
     else banner)
      +:+ nl +:+ "this." +:+ ns +:+ " = this." +:+ ns +:+ " || {};".

Definition umd_globals : jsval :=
  JObj (JStr <$> (options_globals ∪ globals h)).

Definition umd_output (file : string) : gmap string jsval :=
  Object_assign
    {[ "banner" := JStr umd_banner;
       "file" := JStr file;
       "format" := JStr "umd";
       "globals" := umd_globals;
       "name" := JStr name;
       "footer" := footer;
       "sourcemap" := JBool sourcemap ]}
    (pkg_bundleOutput pkg).

(** What the manifest's [bundleOutput] says about property [k], if it
    says anything. *)
Definition bundle_override (k : string) : option jsval :=
  pkg_bundleOutput pkg ≫= (fun src => src !! k).

Definition is_production : bool :=
  bool_decide (NODE_ENV h = Some "production") || production.

Definition entry_error : string :=
  "Unable to resolve entry file: <projectFolder>/src/index.(js|ts) do not exist?".

Definition main : Result (list Config) :=
  match resolve_input with
  | None => Throw entry_error
  | Some input =>
      let config :=
        {| plugins := base_plugins; external := externals; input := input;
           output := OutputArray module_outputs; treeshake := None |} in
      match truthy (js_or (opt_bundle options) (pkg_bundle pkg)) with
      | None => Ok [config]
      | Some bundle =>
          let file := path_join h (projectFolder h) bundle in
          let umd :=
            {| plugins := base_plugins; external := externals; input := input;
               output := OutputObject (umd_output file);
               treeshake := Some false |} in
          let min :=
            {| plugins := base_plugins ++ [plugin_terser];
               external := externals; input := input;
               output := OutputObject (umd_output (replace_js_suffix file));
               treeshake := Some false |} in
          Ok ([config; umd] ++ (if is_production then [min] else []))
      end
  end.

(** [main] returns, and every configuration it returns reads [entry]. *)
Definition returns_with_input (entry : string) : Prop :=
  exists cfgs, main = Ok cfgs /\ cfgs <> [] /\ forall c, c ∈ cfgs -> input c = entry.

End assembler.

(** *** Sample inputs *)

(** A project in [/repo] with a TypeScript entry file. *)
Definition ts_project : Host :=
  {| projectFolder := "/repo";
     existsSync := fun path => String.eqb path "/repo/src/index.ts";
     path_join := slash_join;
     NODE_ENV := None;
     toUTCString := "Mon, 02 Nov 2026 10:00:00 GMT";
     globals := {[ "pixi.js" := "PIXI" ]};
     path_join_nonempty := ltac:(intros [|c a] b; discriminate) |}.

(** The same project without any entry file. *)
Definition empty_project : Host :=
  {| projectFolder := "/repo";
     existsSync := fun _ => false;
     path_join := slash_join;
     NODE_ENV := None;
     toUTCString := "Mon, 02 Nov 2026 10:00:00 GMT";
     globals := {[ "pixi.js" := "PIXI" ]};
     path_join_nonempty := ltac:(intros [|c a] b; discriminate) |}.

Definition no_options : Options :=
  {| opt_sourcemap := None; opt_globals := None; opt_production := None;
     opt_external := None; opt_excludedExternals := None; opt_main := None;
     opt_module := None; opt_bundle := None; opt_input := None |}.

Definition production_options : Options :=
  {| opt_sourcemap := None; opt_globals := None; opt_production := Some true;
     opt_external := Some ["lodash"]; opt_excludedExternals := Some ["pixi.js"];
     opt_main := None; opt_module := None; opt_bundle := None; opt_input := None |}.

(** A manifest with the two module outputs and no UMD bundle. *)
Definition module_pkg : Manifest :=
  {| pkg_name := "@pixi-essentials/bounds"; pkg_version := "1.0.0";
     pkg_author := "Jane Doe";
     pkg_main := Some "lib/bounds.js"; pkg_module := Some "lib/bounds.es.js";
     pkg_bundle := None; pkg_bundleOutput := None; pkg_bundleNoExports := None;
     pkg_namespace := None; pkg_standalone := None;
     pkg_peerDependencies := Some [("pixi.js", "^5.0.0")];
     pkg_dependencies := Some [("tslib", "^2.0.0")] |}.

(** The same manifest with a UMD bundle, and its variations. *)
Definition bundle_pkg : Manifest :=
  {| pkg_name := "@pixi-essentials/bounds"; pkg_version := "1.0.0";
     pkg_author := "Jane Doe";
     pkg_main := Some "lib/bounds.js"; pkg_module := Some "lib/bounds.es.js";
     pkg_bundle := Some "dist/bounds.js"; pkg_bundleOutput := None;
     pkg_bundleNoExports := None;
     pkg_namespace := None; pkg_standalone := None;
     pkg_peerDependencies := Some [("pixi.js", "^5.0.0")];
     pkg_dependencies := Some [("tslib", "^2.0.0")] |}.



Definition with_bundleOutput (p : Manifest) (o : gmap string jsval) : Manifest :=
  {| pkg_name := pkg_name p; pkg_version := pkg_version p; pkg_author := pkg_author p;
     pkg_main := pkg_main p; pkg_module := pkg_module p; pkg_bundle := pkg_bundle p;
     pkg_bundleOutput := Some o;
     pkg_bundleNoExports := pkg_bundleNoExports p;
     pkg_namespace := pkg_namespace p; pkg_standalone := pkg_standalone p;
     pkg_peerDependencies := pkg_peerDependencies p;
     pkg_dependencies := pkg_dependencies p |}.

(** [h] with [NODE_ENV=production]. *)
Definition env_production (h : Host) : Host :=
  {| projectFolder := projectFolder h; existsSync := existsSync h;
     path_join := path_join h; NODE_ENV := Some "production";
     toUTCString := toUTCString h; globals := globals h;
     path_join_nonempty := path_join_nonempty h |}.

Definition with_namespace (p : Manifest) (n : string) : Manifest :=
  {| pkg_name := pkg_name p; pkg_version := pkg_version p; pkg_author := pkg_author p;
     pkg_main := pkg_main p; pkg_module := pkg_module p; pkg_bundle := pkg_bundle p;
     pkg_bundleOutput := pkg_bundleOutput p;
     pkg_bundleNoExports := pkg_bundleNoExports p;
     pkg_namespace := Some n; pkg_standalone := pkg_standalone p;
     pkg_peerDependencies := pkg_peerDependencies p;
     pkg_dependencies := pkg_dependencies p |}.

End Rollup.

(** ** The api-extractor runner for lerna monorepos *)

(** Truthiness of a property value. *)
Definition js_truthy (v : jsval) : bool :=
  match v with
  | JUndefined | JNull | JBool false | JNum "0" | JNum "NaN" | JStr "" => false
  | _ => true
  end.

(** String conversion inside a template literal.
    [Array.prototype.join] prints [null] and [undefined] elements as
    nothing. *)
Fixpoint to_display (v : jsval) : string :=
  match v with
  | JUndefined => "undefined"
  | JNull => "null"
  | JBool true => "true"
  | JBool false => "false"
  | JNum text => text
  | JStr s => s
  | JArr l =>
      let element x :=
        match x with
        | JUndefined | JNull => ""
        | _ => to_display x
        end in
      (fix join_elements (l : list jsval) : string :=
         match l with
         | [] => ""
         | [x] => element x
         | x :: rest => element x +:+ "," +:+ join_elements rest
         end) l
  | JObj _ => "[object Object]"
  end.

Module ApiExtractor.

Record CompilerOptions := { outDir : option string }.
Record Tsconfig := { compilerOptions : option CompilerOptions }.

(** A lerna [Package], as far as the runner reads it: its [location]
    getter and the manifest that [toJSON()] hands out as a shallow copy. *)
Record Package := {
  location : string;
  manifest : gmap string jsval
}.

(** An extractor configuration, given by the argument that
    [ExtractorConfig.prepare] makes it from.  The constant parts of
    [configObject] ([dtsRollup.enabled: true] and the three message
    tables with [logLevel: 'none']) are the same in every call and are
    left out. *)
Record ExtractorConfig := {
  mainEntryPointFilePath : string;
  projectFolder : string;
  bundledPackages : jsval;
  tsconfigFilePath : string;
  untrimmedFilePath : string;
  packageJson : gmap string jsval;
  packageFolder : string;
  packageJsonFullPath : string
}.

(** A compiler state, given by the configuration that
    [CompilerState.create] made it from. *)
Record CompilerState := { created_from : ExtractorConfig }.

Record ExtractorResult := {
  succeeded : bool;
  errorCount : nat;
  warningCount : nat
}.

(** What [Extractor.invoke] does: it throws or it returns a result. *)
Inductive Outcome :=
  | Thrown (e : string)
  | Returned (r : ExtractorResult).

(** Node, lerna and api-extractor as the runner meets them.  Each of
    the calls below the path functions can throw (for [getPackages]:
    its promise can reject); [ExtractorConfig_prepare] and
    [CompilerState_create] say whether the call made with this argument
    throws, the object they return being identified with the argument. *)
Record Host := {
  cwd : string;                                     (* process.cwd() *)
  existsSync : string -> bool;                      (* fs.existsSync *)
  path_join : string -> string -> string;           (* path.join *)
  path_relative : string -> string -> string;       (* path.relative *)
  require_json : string -> Result Tsconfig;         (* require(<tsconfigJson>) *)
  getPackages : string -> Result (list Package);    (* @lerna/project *)
  ExtractorConfig_prepare : ExtractorConfig -> Result unit;
  CompilerState_create : ExtractorConfig -> Result unit;
  Extractor_invoke : ExtractorConfig -> option bool -> CompilerState -> Outcome
}.

Record Options := {
  tsconfigJson : option string;
  showVerboseMessages : option bool
}.

(** What the process does that can be observed from outside: the lines
    it prints, and its calls of [ExtractorConfig.prepare],
    [CompilerState.create] and [Extractor.invoke]. *)
Inductive Event :=
  | console_log (line : string)
  | console_error (line : string)
  | prepare (cfg : ExtractorConfig)
  | create (cfg : ExtractorConfig)
  | invoke (cfg : ExtractorConfig) (verbose : option bool) (state : CompilerState).

(** How the asynchronous [main] ends: its promise resolves, it rejects
    with a thrown error, or [process.exit] stops the process. *)
Inductive Status :=
  | Resolved
  | Rejected (msg : string)
  | Exited (code : Z).

(** After one package: go on with the compiler state, stop the process,
    or leave the loop with an exception. *)
Inductive Next :=
  | Continue (compilerState : option CompilerState)
  | Exit (code : Z)
  | Fail (e : string).

(** The directories fixed before the loop starts. *)
Record Setup := {
  setup_tsconfigJson : string;
  setup_outDir : string
}.

(** A path argument read from an object; line 34 has stored a string
    under [location] in every object the runner reads it from. *)
Definition as_path (v : jsval) : string :=
  match v with
  | JStr s => s
  | _ => ""
  end.

Section runner.
Variable h : Host.
Variable options : Options.

Definition verbose : option bool := showVerboseMessages options.

(** Lines 12-28. *)
Definition setup : Result Setup :=
  let tsconfigJson :=
    default (path_join h (cwd h) "./tsconfig.json") (truthy (tsconfigJson options)) in
  if negb (existsSync h tsconfigJson) then
    Throw (tsconfigJson +:+ " does not exist - a TypeScript configuration file is needed to use @pixi-build-tools/api-extractor-lerna-monorepo!")
  else
    match require_json h tsconfigJson with
    | Throw e => Throw e
    | Ok tsconfig =>
        match compilerOptions tsconfig ≫= (fun co => truthy (outDir co)) with
        | None => Throw (tsconfigJson +:+ " does not specify compilerOptions.outDir")
        | Some dir =>
            Ok {| setup_tsconfigJson := tsconfigJson;
                  setup_outDir := path_join h (cwd h) dir |}
        end
    end.

Section discovered.
(** Line 31, when the promise of [getPackages] is fulfilled. *)
Variable projectPackages : list Package.

(** Line 34, one iteration: [pkgJson.location = projectPackages[i].location]
    writes into the [i]-th object of the array. *)
Definition set_location (jsons : list (gmap string jsval)) (i : nat)
    : list (gmap string jsval) :=
  match jsons !! i, projectPackages !! i with
  | Some pkgJson, Some p => <[i := <["location" := JStr (location p)]> pkgJson]> jsons
  | _, _ => jsons
  end.

(** Lines 32-34: the copies made by [toJSON()], then the [forEach]
    that writes the location into each of them. *)
Definition projectPackageJsons : list (gmap string jsval) :=
  let jsons := manifest <$> projectPackages in
  foldl set_location jsons (seq 0 (length jsons)).

Definition has_entry (pkgJson : gmap string jsval) : bool :=
  existsSync h (path_join h (as_path (prop pkgJson "location")) "./src/index.ts").

(** Line 37. *)
Definition packageJsons : list (gmap string jsval) :=
  List.filter has_entry projectPackageJsons.

End discovered.

Section loop.
Variable env : Setup.

(** Lines 44-83: the argument of [ExtractorConfig.prepare]. *)
Definition prepare_argument (pkg : gmap string jsval) : ExtractorConfig :=
  let location := as_path (prop pkg "location") in
  let relative := path_relative h (cwd h) location in
  let dtsFolder := path_join h (setup_outDir env) relative in
  {| mainEntryPointFilePath := path_join h dtsFolder "./src/index.d.ts";
     projectFolder := location;
     bundledPackages :=
       if js_truthy (prop pkg "bundledPackages") then prop pkg "bundledPackages"
       else JArr [];
     tsconfigFilePath := setup_tsconfigJson env;
     untrimmedFilePath := path_join h location "index.d.ts";
     packageJson := pkg;
     packageFolder := location;
     packageJsonFullPath := path_join h location "./package.json" |}.

Definition pkg_name (pkg : gmap string jsval) : string :=
  to_display (prop pkg "name").

Definition header (pkg : gmap string jsval) : Event :=
  console_log (pkg_name pkg +:+ " ---------------------------------------------").

Definition report (pkg : gmap string jsval) (r : ExtractorResult) : Event :=
  console_error (pkg_name pkg +:+ ": completed with " +:+ pretty (errorCount r)
                   +:+ " errors" +:+ " and " +:+ pretty (warningCount r) +:+ " warnings").

(** Line 85: [compilerState = compilerState || CompilerState.create(extractorConfig)];
    the call is made only while there is no state, and it can throw. *)
Definition shared_state (compilerState : option CompilerState)
    (cfg : ExtractorConfig) : list Event * Result CompilerState :=
  match compilerState with
  | Some state => ([], Ok state)
  | None =>
      ([create cfg],
       match CompilerState_create h cfg with
       | Throw e => Throw e
       | Ok _ => Ok {| created_from := cfg |}
       end)
  end.

(** Lines 87-112, once there are a configuration and a state. *)
Definition invoke_and_report (pkg : gmap string jsval) (cfg : ExtractorConfig)
    (state : CompilerState) : list Event * Next :=
  match Extractor_invoke h cfg verbose state with
  | Thrown e =>
      ([invoke cfg verbose state;
        console_log (pkg_name pkg +:+ " failed:"); console_error e], Exit 1)
  | Returned r =>
      if succeeded r then
        ([invoke cfg verbose state;
          console_error (pkg_name pkg +:+ ": completed successfully!")],
         Continue (Some state))
      else if (0 <? errorCount r)%nat then
        ([invoke cfg verbose state; report pkg r], Exit 1)
      else
        ([invoke cfg verbose state; report pkg r], Continue (Some state))
  end.

(** The body of the [forEach] callback, lines 42-112.  Only
    [Extractor.invoke] is inside the [try]: an exception of
    [ExtractorConfig.prepare] or [CompilerState.create] leaves the
    callback. *)
Definition extract (compilerState : option CompilerState)
    (pkg : gmap string jsval) : list Event * Next :=
  let cfg := prepare_argument pkg in
  match ExtractorConfig_prepare h cfg with
  | Throw e => ([header pkg; prepare cfg], Fail e)
  | Ok _ =>
      match shared_state compilerState cfg with
      | (created, Throw e) => ([header pkg; prepare cfg] ++ created, Fail e)
      | (created, Ok state) =>
          let '(events, next) := invoke_and_report pkg cfg state in
          ([header pkg; prepare cfg] ++ created ++ events, next)
      end
  end.

(** The iteration for a package gets as far as calling the extractor:
    preparing the configuration does not throw, and neither does
    creating the compiler state when there is none yet. *)
Definition calls_extractor (compilerState : option CompilerState)
    (pkg : gmap string jsval) : Prop :=
  ExtractorConfig_prepare h (prepare_argument pkg) = Ok tt
  /\ (compilerState = None -> CompilerState_create h (prepare_argument pkg) = Ok tt).

(** [packageJsons.forEach(...)]; [process.exit] or an exception ends it
    early. *)
Fixpoint forEach (compilerState : option CompilerState)
    (pkgs : list (gmap string jsval)) : list Event * Next :=
  match pkgs with
  | [] => ([], Continue compilerState)
  | pkg :: rest =>
      match extract compilerState pkg with
      | (events, Continue compilerState') =>
          let '(events', next) := forEach compilerState' rest in
          (events ++ events', next)
      | stopped => stopped
      end
  end.
End loop.

Definition status_of (next : Next) : Status :=
  match next with
  | Continue _ => Resolved
  | Exit code => Exited code
  | Fail e => Rejected e
  end.

Definition main : list Event * Status :=
  match setup with
  | Throw msg => ([], Rejected msg)
  | Ok env =>
      match getPackages h (cwd h) with
      | Throw e => ([], Rejected e)
      | Ok projectPackages =>
          let '(events, next) := forEach env None (packageJsons projectPackages) in
          (events, status_of next)
      end
  end.

(** The configurations [Extractor.invoke] was called with, in order. *)
Definition invocations (events : list Event) : list ExtractorConfig :=
  omap (fun e => match e with invoke cfg _ _ => Some cfg | _ => None end) events.

(** The configurations [ExtractorConfig.prepare] was called for, in order. *)
Definition preparations (events : list Event) : list ExtractorConfig :=
  omap (fun e => match e with prepare cfg => Some cfg | _ => None end) events.

(** The configurations [CompilerState.create] was called with, in order. *)
Definition creations (events : list Event) : list ExtractorConfig :=
  omap (fun e => match e with create cfg => Some cfg | _ => None end) events.

(** The copy of a listed package's manifest with its location written
    into it. *)
Definition with_location (p : Package) : gmap string jsval :=
  <["location" := JStr (location p)]> (manifest p).

(** The listed package has a [src/index.ts]. *)
Definition has_index (p : Package) : bool :=
  existsSync h (path_join h (location p) "./src/index.ts").

(** An outcome after which the loop goes on to the next package. *)
Definition goes_on (outcome : Outcome) : bool :=
  match outcome with
  | Thrown _ => false
  | Returned r => succeeded r || (errorCount r =? 0)%nat
  end.

End runner.

(** *** Lines 31-34 on the heap

    The lister's packages and the copies the runner makes are objects
    of one heap, addressed by their index; a new object is put at the
    end. *)

Definition alloc (heap : list (gmap string jsval)) (obj : gmap string jsval)
    : list (gmap string jsval) * nat :=
  (heap ++ [obj], length heap).

(** [pkg.toJSON()] for the package whose manifest is the object at
    [PKG]: lerna copies it into a new object. *)
Definition toJSON (heap : list (gmap string jsval)) (PKG : nat)
    : list (gmap string jsval) * nat :=
  alloc heap (default ∅ (heap !! PKG)).

(** Line 32: [projectPackages.map(pkg => pkg.toJSON())]. *)
Fixpoint map_toJSON (heap : list (gmap string jsval)) (PKGs : list nat)
    : list (gmap string jsval) * list nat :=
  match PKGs with
  | [] => (heap, [])
  | PKG :: rest =>
      let '(heap, pkgJson) := toJSON heap PKG in
      let '(heap, pkgJsons) := map_toJSON heap rest in
      (heap, pkgJson :: pkgJsons)
  end.

(** [pkgJson.location = location], [pkgJson] being the object at the
    address. *)
Definition assign_location (heap : list (gmap string jsval)) (pkgJson : nat)
    (location : string) : list (gmap string jsval) :=
  match heap !! pkgJson with
  | Some obj => <[pkgJson := <["location" := JStr location]> obj]> heap
  | None => heap
  end.

(** Line 34: the [forEach] over [projectPackageJsons] with its index. *)
Definition assign_locations (heap : list (gmap string jsval)) (pkgJsons : list nat)
    (locations : list string) : list (gmap string jsval) :=
  foldl (fun heap i =>
           match pkgJsons !! i, locations !! i with
           | Some pkgJson, Some location => assign_location heap pkgJson location
           | _, _ => heap
           end)
        heap (seq 0 (length pkgJsons)).

(** Lines 31-34, the manifest of the [i]-th listed package being the
    object at address [i] when [getPackages] returns: the heap after the
    locations are written, and the addresses of [projectPackageJsons]. *)
Definition discovery (projectPackages : list Package)
    : list (gmap string jsval) * list nat :=
  let '(heap, pkgJsons) :=
    map_toJSON (manifest <$> projectPackages) (seq 0 (length projectPackages)) in
  (assign_locations heap pkgJsons (location <$> projectPackages), pkgJsons).

(** *** Sample workspaces *)

Definition pkg_a : Package :=
  {| location := "/repo/packages/a"; manifest := {[ "name" := JStr "a" ]} |}.
Definition pkg_b : Package :=
  {| location := "/repo/packages/b"; manifest := {[ "name" := JStr "b" ]} |}.
Definition pkg_docs : Package :=
  {| location := "/repo/docs"; manifest := {[ "name" := JStr "docs" ]} |}.

(** [/repo] holds a tsconfig.json with [outDir: "compiled"] and three
    packages; [a] and [b] have a [src/index.ts], [docs] has none.  [tool]
    says what the extractor does in a package folder; preparing a
    configuration and creating the compiler state work. *)
Definition workspace (tool : string -> Outcome) : Host :=
  {| cwd := "/repo";
     existsSync := fun path =>
       bool_decide (path ∈ [ "/repo/tsconfig.json";
                             "/repo/packages/a/src/index.ts";
                             "/repo/packages/b/src/index.ts" ]);
     path_join := slash_join;
     path_relative := fun from to =>
       String.substring (S (String.length from)) (String.length to) to;
     require_json := fun _ =>
       Ok {| compilerOptions := Some {| outDir := Some "compiled" |} |};
     getPackages := fun _ => Ok [pkg_a; pkg_docs; pkg_b];
     ExtractorConfig_prepare := fun _ => Ok tt;
     CompilerState_create := fun _ => Ok tt;
     Extractor_invoke := fun cfg _ _ => tool (packageFolder cfg) |}.

Definition no_options : Options :=
  {| tsconfigJson := None; showVerboseMessages := None |}.

Definition success : Outcome :=
  Returned {| succeeded := true; errorCount := 0; warningCount := 0 |}.

Definition all_succeed (folder : string) : Outcome := success.

Definition crash_in_a (folder : string) : Outcome :=
  if String.eqb folder "/repo/packages/a" then Thrown "Error: cannot read index.d.ts"
  else success.

Definition warnings_in_a (folder : string) : Outcome :=
  if String.eqb folder "/repo/packages/a"
  then Returned {| succeeded := false; errorCount := 0; warningCount := 2 |}
  else success.


(** A workspace whose only package has no [src/index.ts]. *)
Definition docs_workspace : Host :=
  {| cwd := "/repo";
     existsSync := fun path => String.eqb path "/repo/tsconfig.json";
     path_join := slash_join;
     path_relative := fun from to =>
       String.substring (S (String.length from)) (String.length to) to;
     require_json := fun _ =>
       Ok {| compilerOptions := Some {| outDir := Some "compiled" |} |};
     getPackages := fun _ => Ok [pkg_docs];
     ExtractorConfig_prepare := fun _ => Ok tt;
     CompilerState_create := fun _ => Ok tt;
     Extractor_invoke := fun _ _ _ => success |}.


End ApiExtractor.

(** * Properties of the assembler *)

Section rollup_facts.
Import Rollup.
Implicit Types (h : Host) (o : Options) (p : Manifest).

(** Membership in a list that is written out. *)
Ltac in_list H :=
  repeat (apply elem_of_cons in H as [-> | H]; [done|]);
  by apply elem_of_nil in H.

Lemma truthy_Some (v : option string) (s : string) :
  truthy v = Some s <-> v = Some s /\ s <> "".
Proof.
  destruct v as [t|]; simpl; [|split; [discriminate | intros [? _]; discriminate]].
  destruct (String.eqb_spec t "") as [->|Hne]; split.
  - discriminate.
  - intros [[= <-] Hs]. by destruct Hs.
  - intros [= <-]. done.
  - intros [[= <-] _]. done.
Qed.

Lemma truthy_nonempty (s : string) : s <> "" -> truthy (Some s) = Some s.
Proof. intros Hs. by apply truthy_Some. Qed.

(** The three candidates in the order the code tries them. *)
Lemma resolve_input_order h o :
  resolve_input h o =
    match truthy (opt_input o) with
    | Some i => Some i
    | None =>
        if existsSync h (indexTs h) then Some (indexTs h)
        else if existsSync h (indexJs h) then Some (indexJs h)
        else None
    end.
Proof.
  unfold resolve_input.
  destruct (truthy (opt_input o)) as [i|] eqn:Hin.
  - rewrite Hin. apply truthy_Some in Hin as [-> Hi]. by apply truthy_nonempty.
  - destruct (existsSync h (indexTs h)).
    + rewrite !truthy_nonempty; [done | apply path_join_nonempty ..].
    + rewrite Hin. destruct (existsSync h (indexJs h)); [|done].
      apply truthy_nonempty, path_join_nonempty.
Qed.

Lemma main_Ok_inv h o p cfgs :
  main h o p = Ok cfgs ->
  exists i, resolve_input h o = Some i /\ cfgs <> [] /\
    forall c, c ∈ cfgs -> input c = i /\ external c = externals o p.
Proof.
  unfold main. destruct (resolve_input h o) as [i|]; [|discriminate].
  intros Hm. exists i. split; [done|].
  destruct (truthy (js_or (opt_bundle o) (pkg_bundle p))).
  - injection Hm as <-. split; [done|]. intros c Hc.
    destruct (is_production h o); simpl in Hc; in_list Hc.
  - injection Hm as <-. split; [done|]. intros c Hc. in_list Hc.
Qed.

Lemma main_resolved h o p i :
  resolve_input h o = Some i -> returns_with_input h o p i.
Proof.
  intros Hi. destruct (main h o p) as [cfgs|msg] eqn:Hm.
  - exists cfgs. split; [done|].
    destruct (main_Ok_inv _ _ _ _ Hm) as (j & Hj & Hne & Hall).
    split; [done|]. intros c Hc. destruct (Hall c Hc) as [-> _]. congruence.
  - unfold main in Hm. rewrite Hi in Hm.
    by destruct (truthy (js_or (opt_bundle o) (pkg_bundle p))).
Qed.

(** C3. The entry point is the caller's [input] when one is given,
    else [src/index.ts] when that file exists, else [src/index.js] when
    that one exists; [main] throws its configuration error exactly when
    there is no override and neither file exists, and it throws nothing
    else. *)
Theorem main_entry_resolution h o p :
  let ts := path_join h (projectFolder h) "src/index.ts" in
  let js := path_join h (projectFolder h) "src/index.js" in
  (forall i, truthy (opt_input o) = Some i -> returns_with_input h o p i)
  /\ (truthy (opt_input o) = None -> existsSync h ts = true ->
      returns_with_input h o p ts)
  /\ (truthy (opt_input o) = None -> existsSync h ts = false ->
      existsSync h js = true -> returns_with_input h o p js)
  /\ (main h o p = Throw entry_error <->
      truthy (opt_input o) = None
      /\ existsSync h ts = false /\ existsSync h js = false)
  /\ (forall msg, main h o p = Throw msg -> msg = entry_error).
Proof.
  intros ts js. pose proof (resolve_input_order h o) as Hr.
  fold (indexTs h) (indexJs h) in ts, js. subst ts js.
  split; [|split; [|split; [|split]]].
  - intros i Hi. apply main_resolved. by rewrite Hr, Hi.
  - intros Hi Hts. apply main_resolved. by rewrite Hr, Hi, Hts.
  - intros Hi Hts Hjs. apply main_resolved. by rewrite Hr, Hi, Hts, Hjs.
  - split.
    + intros Hthrow.
      destruct (truthy (opt_input o)), (existsSync h (indexTs h)),
        (existsSync h (indexJs h)); try done;
        destruct (main_resolved h o p _ Hr) as (cfgs & Hm & _); congruence.
    + intros (Hi & Hts & Hjs).
      rewrite Hi, Hts, Hjs in Hr. unfold main. by rewrite Hr.
  - intros msg. unfold main. destruct (resolve_input h o).
    + by destruct (truthy (js_or (opt_bundle o) (pkg_bundle p))).
    + by intros [= <-].
Qed.

Lemma main_entry_resolution_witness :
  truthy (opt_input no_options) = None
  /\ existsSync ts_project "/repo/src/index.ts" = true
  /\ returns_with_input ts_project no_options module_pkg "/repo/src/index.ts"
  /\ main empty_project no_options module_pkg = Throw entry_error.
Proof.
  split; [reflexivity|]. split; [reflexivity|]. split.
  - apply (main_entry_resolution ts_project no_options module_pkg); reflexivity.
  - apply (main_entry_resolution empty_project no_options module_pkg).
    repeat split; reflexivity.
Defined.

Lemma elem_of_externals o p (x : string) :
  x ∈ externals o p <->
  (x ∈ default [] (opt_external o)
   \/ x ∈ (default [] (pkg_peerDependencies p)).*1
   \/ x ∈ (default [] (pkg_dependencies p)).*1)
  /\ x ∉ default [] (opt_excludedExternals o).
Proof.
  unfold externals, keys, excluded.
  rewrite list_elem_of_In, filter_In, <- list_elem_of_In, !elem_of_app.
  destruct (opt_excludedExternals o) as [l|]; simpl.
  - rewrite negb_true_iff, bool_decide_eq_false. done.
  - split; [intros [? _]; split; [done | apply not_elem_of_nil] | intros [? _]; done].
Qed.

(** C2. In every configuration that [main] returns, the [external] list
    holds, as a set, the caller's [external] entries, the keys of
    [peerDependencies] and the keys of [dependencies], without the
    caller's [excludedExternals]. *)
Theorem externals_as_set h o p cfgs c :
  main h o p = Ok cfgs ->
  c ∈ cfgs ->
  list_to_set (external c) =@{gset string}
    (list_to_set (default [] (opt_external o))
       ∪ list_to_set (default [] (pkg_peerDependencies p)).*1
       ∪ list_to_set (default [] (pkg_dependencies p)).*1)
      ∖ list_to_set (default [] (opt_excludedExternals o)).
Proof.
  intros Hm Hc. destruct (main_Ok_inv _ _ _ _ Hm) as (i & _ & _ & Hall).
  destruct (Hall c Hc) as [_ ->].
  apply set_eq. intros x.
  rewrite elem_of_difference, !elem_of_union, !elem_of_list_to_set.
  rewrite elem_of_externals. tauto.
Qed.

Lemma externals_as_set_witness :
  exists cfgs c,
    main ts_project production_options bundle_pkg = Ok cfgs
    /\ c ∈ cfgs
    /\ list_to_set (external c) =@{gset string}
         (list_to_set (default [] (opt_external production_options))
            ∪ list_to_set (default [] (pkg_peerDependencies bundle_pkg)).*1
            ∪ list_to_set (default [] (pkg_dependencies bundle_pkg)).*1)
           ∖ list_to_set (default [] (opt_excludedExternals production_options)).
Proof.
  eexists _, _. split; [reflexivity|]. split; [apply list_elem_of_here|].
  apply (externals_as_set ts_project production_options bundle_pkg _ _ eq_refl).
  apply list_elem_of_here.
Defined.

(** *** Output descriptors *)

Lemma prop_module_output h o p (format path : string) :
  prop (module_output h o p format path) "format" = JStr format
  /\ prop (module_output h o p format path) "file"
     = JStr (path_join h (projectFolder h) path).
Proof. split; reflexivity. Qed.

Lemma module_outputs_formats h o p (d : gmap string jsval) :
  d ∈ module_outputs h o p ->
  prop d "format" = JStr "cjs" \/ prop d "format" = JStr "esm".
Proof.
  unfold module_outputs. intros Hd. apply elem_of_app in Hd as [Hd|Hd].
  - destruct (truthy (js_or (opt_main o) (pkg_main p))); [|by apply elem_of_nil in Hd].
    apply list_elem_of_singleton in Hd as ->. by left.
  - destruct (truthy (js_or (opt_module o) (pkg_module p))); [|by apply elem_of_nil in Hd].
    apply list_elem_of_singleton in Hd as ->. by right.
Qed.

(** A property of a UMD descriptor is what [bundleOutput] says, and
    what the assembler computed when [bundleOutput] is silent. *)
Lemma prop_umd_output h o p (file k : string) :
  prop (umd_output h o p file) k =
    match bundle_override p k with
    | Some v => v
    | None =>
        prop {[ "banner" := JStr (umd_banner h p);
                "file" := JStr file;
                "format" := JStr "umd";
                "globals" := umd_globals h o;
                "name" := JStr (name p);
                "footer" := footer p;
                "sourcemap" := JBool (sourcemap o) ]} k
    end.
Proof.
  unfold umd_output, bundle_override, Object_assign, prop.
  destruct (pkg_bundleOutput p) as [src|]; simpl; [|done].
  destruct (src !! k) as [v|] eqn:Hk.
  - by erewrite lookup_union_Some_l.
  - by rewrite lookup_union_r.
Qed.

Lemma js_or_truthy (a b : option string) (s : string) :
  truthy b = Some s -> exists t, truthy (js_or a b) = Some t.
Proof.
  intros Hb. unfold js_or. destruct (truthy a) as [t|] eqn:Ha.
  - exists t. apply truthy_Some in Ha as [_ Ht]. by apply truthy_nonempty.
  - by exists s.
Qed.

Lemma main_bundle h o p (i b : string) :
  resolve_input h o = Some i ->
  truthy (js_or (opt_bundle o) (pkg_bundle p)) = Some b ->
  main h o p =
    Ok ([ {| plugins := base_plugins p; external := externals o p; input := i;
             output := OutputArray (module_outputs h o p); treeshake := None |};
          {| plugins := base_plugins p; external := externals o p; input := i;
             output := OutputObject (umd_output h o p (path_join h (projectFolder h) b));
             treeshake := Some false |} ]
        ++ if is_production h o then
             [ {| plugins := base_plugins p ++ [plugin_terser];
                  external := externals o p; input := i;
                  output := OutputObject
                    (umd_output h o p (replace_js_suffix (path_join h (projectFolder h) b)));
                  treeshake := Some false |} ]
           else []).
Proof. intros Hi Hb. unfold main. by rewrite Hi, Hb. Qed.

Lemma main_no_bundle h o p (i : string) :
  resolve_input h o = Some i ->
  truthy (js_or (opt_bundle o) (pkg_bundle p)) = None ->
  main h o p =
    Ok [ {| plugins := base_plugins p; external := externals o p; input := i;
            output := OutputArray (module_outputs h o p); treeshake := None |} ].
Proof. intros Hi Hb. unfold main. by rewrite Hi, Hb. Qed.

(** C1, as the code has it. With a resolvable entry point, a manifest
    whose [bundle] is set and [production: true] give exactly three
    configurations: the first carries the main/module descriptors (cjs
    and esm only), the second carries the one unminified UMD descriptor
    and the third, which also runs terser, the one minified UMD
    descriptor.  The two UMD descriptors differ in their [file] only and
    have format umd unless [bundleOutput] overrides it. *)
Theorem production_bundle_configurations h o p (i b : string) :
  resolve_input h o = Some i ->
  truthy (pkg_bundle p) = Some b ->
  opt_production o = Some true ->
  exists c0 c1 c2 d1 d2 file,
    main h o p = Ok [c0; c1; c2]
    /\ output c0 = OutputArray (module_outputs h o p)
    /\ (forall d, d ∈ module_outputs h o p ->
          prop d "format" = JStr "cjs" \/ prop d "format" = JStr "esm")
    /\ output c1 = OutputObject d1
    /\ output c2 = OutputObject d2
    /\ d1 = umd_output h o p file
    /\ d2 = umd_output h o p (replace_js_suffix file)
    /\ plugins c2 = plugins c1 ++ [plugin_terser]
    /\ (bundle_override p "format" = None ->
        prop d1 "format" = JStr "umd" /\ prop d2 "format" = JStr "umd").
Proof.
  intros Hi Hb Hprod.
  destruct (js_or_truthy (opt_bundle o) _ _ Hb) as [path Hpath].
  rewrite (main_bundle h o p i path Hi Hpath).
  assert (is_production h o = true) as ->.
  { unfold is_production, production. rewrite Hprod. apply orb_true_r. }
  do 6 eexists. split; [reflexivity|]. simpl.
  split; [done|]. split; [apply module_outputs_formats|].
  do 5 (split; [reflexivity|]).
  intros Hfmt. by rewrite !prop_umd_output, Hfmt.
Qed.

Lemma production_bundle_configurations_witness :
  exists c0 c1 c2,
    main ts_project production_options bundle_pkg = Ok [c0; c1; c2].
Proof.
  destruct (production_bundle_configurations ts_project production_options
              bundle_pkg "/repo/src/index.ts" "dist/bounds.js"
              eq_refl eq_refl eq_refl)
    as (c0 & c1 & c2 & _ & _ & _ & Hm & _).
  by exists c0, c1, c2.
Defined.

Lemma two_configurations_counterexample :
  truthy (pkg_bundle bundle_pkg) = Some "dist/bounds.js"
  /\ opt_production production_options = Some true
  /\ ~ (exists c1 c2, main ts_project production_options bundle_pkg = Ok [c1; c2]).
Proof.
  split; [reflexivity|]. split; [reflexivity|].
  intros (c1 & c2 & Hm). vm_compute in Hm. discriminate Hm.
Qed.

(** C4, as the code has it. With a resolvable entry point, a manifest
    whose [main] and [module] are set and which has no [bundle], and no
    path overrides from the caller, give exactly one configuration whose
    output list is a cjs descriptor for [main] followed by an esm
    descriptor for [module]. *)
Theorem module_only_configuration h o p (i m e : string) :
  resolve_input h o = Some i ->
  truthy (pkg_main p) = Some m ->
  truthy (pkg_module p) = Some e ->
  pkg_bundle p = None ->
  opt_main o = None -> opt_module o = None -> opt_bundle o = None ->
  exists c d1 d2,
    main h o p = Ok [c]
    /\ output c = OutputArray [d1; d2]
    /\ prop d1 "format" = JStr "cjs"
    /\ prop d1 "file" = JStr (path_join h (projectFolder h) m)
    /\ prop d2 "format" = JStr "esm"
    /\ prop d2 "file" = JStr (path_join h (projectFolder h) e).
Proof.
  intros Hi Hm He Hb Hom Hoe Hob.
  rewrite (main_no_bundle h o p i Hi) by (by rewrite Hob, Hb).
  do 3 eexists. split; [reflexivity|]. simpl.
  unfold module_outputs, js_or. rewrite Hom, Hoe. simpl.
  rewrite Hm, He. simpl.
  split; [reflexivity|]. by repeat split.
Qed.

Lemma module_only_configuration_witness :
  exists c d1 d2,
    main ts_project no_options module_pkg = Ok [c]
    /\ output c = OutputArray [d1; d2]
    /\ prop d1 "format" = JStr "cjs"
    /\ prop d1 "file" = JStr "/repo/lib/bounds.js"
    /\ prop d2 "format" = JStr "esm"
    /\ prop d2 "file" = JStr "/repo/lib/bounds.es.js".
Proof.
  exact (module_only_configuration ts_project no_options module_pkg
           "/repo/src/index.ts" "lib/bounds.js" "lib/bounds.es.js"
           eq_refl eq_refl eq_refl eq_refl eq_refl eq_refl eq_refl).
Defined.

Lemma module_only_counterexample :
  truthy (pkg_main module_pkg) = Some "lib/bounds.js"
  /\ truthy (pkg_module module_pkg) = Some "lib/bounds.es.js"
  /\ pkg_bundle module_pkg = None
  /\ main empty_project no_options module_pkg = Throw entry_error
  /\ ~ (exists c, main empty_project no_options module_pkg = Ok [c]).
Proof.
  do 4 (split; [reflexivity|]). intros [c Hc]. discriminate Hc.
Qed.

(** *** The UMD footer *)

(** The descriptors of the UMD configurations of a result. *)
Lemma umd_descriptors h o p cfgs (c : Config) (d : gmap string jsval) :
  main h o p = Ok cfgs -> c ∈ cfgs -> output c = OutputObject d ->
  exists file, d = umd_output h o p file.
Proof.
  unfold main. destruct (resolve_input h o) as [i|]; [|discriminate].
  destruct (truthy (js_or (opt_bundle o) (pkg_bundle p))) as [b|].
  - intros [= <-] Hc Hd. destruct (is_production h o); simpl in Hc.
    + apply elem_of_cons in Hc as [-> | Hc]; [discriminate Hd|].
      apply elem_of_cons in Hc as [-> | Hc]; [injection Hd as <-; eauto|].
      apply list_elem_of_singleton in Hc as ->. injection Hd as <-; eauto.
    + apply elem_of_cons in Hc as [-> | Hc]; [discriminate Hd|].
      apply list_elem_of_singleton in Hc as ->. injection Hd as <-; eauto.
  - intros [= <-] Hc Hd. apply list_elem_of_singleton in Hc as ->. discriminate Hd.
Qed.




(** *** The minified file *)

Lemma replace_js_suffix_cons (c : ascii) (rest : string) :
  replace_js_suffix (String c rest) =
    if String.eqb (String c rest) ".js" then ".min.js"
    else String c (replace_js_suffix rest).
Proof. reflexivity. Qed.

Lemma replace_js_suffix_ends (stem : string) :
  replace_js_suffix (stem +:+ ".js") = stem +:+ ".min.js".
Proof.
  induction stem as [|c stem IH]; [reflexivity|].
  change (String c stem +:+ ".js") with (String c (stem +:+ ".js")).
  rewrite replace_js_suffix_cons, IH.
  destruct (String.eqb_spec (String c (stem +:+ ".js")) ".js") as [Heq|_]; [|done].
  exfalso. injection Heq as _ Heq.
  destruct stem as [|c1 [|c2 [|c3 stem]]]; discriminate Heq.
Qed.

Lemma replace_js_suffix_other (s : string) :
  (forall stem, s <> stem +:+ ".js") -> replace_js_suffix s = s.
Proof.
  induction s as [|c s IH]; [done|]. intros Hs.
  rewrite replace_js_suffix_cons.
  destruct (String.eqb_spec (String c s) ".js") as [Heq|_].
  - by destruct (Hs EmptyString).
  - f_equal. apply IH. intros stem ->. by apply (Hs (String c stem)).
Qed.

(** C10, as the code has it. When a bundle is built for production the
    result is the three configurations, and the [file] of the minified
    descriptor is the [file] of the unminified one with a final [.js]
    replaced by [.min.js] (so the same file when the path does not end in
    [.js]), unless the manifest's [bundleOutput] gives a [file]: then
    both descriptors carry that value. *)
Theorem minified_file h o p (i b : string) :
  resolve_input h o = Some i ->
  truthy (js_or (opt_bundle o) (pkg_bundle p)) = Some b ->
  is_production h o = true ->
  exists c0 cu cm du dm,
    main h o p = Ok [c0; cu; cm]
    /\ output cu = OutputObject du
    /\ output cm = OutputObject dm
    /\ match bundle_override p "file" with
       | Some v => prop du "file" = v /\ prop dm "file" = v
       | None =>
           let file := path_join h (projectFolder h) b in
           prop du "file" = JStr file
           /\ (forall stem, file = stem +:+ ".js" ->
               prop dm "file" = JStr (stem +:+ ".min.js"))
           /\ ((forall stem, file <> stem +:+ ".js") -> prop dm "file" = JStr file)
       end.
Proof.
  intros Hi Hb Hprod. rewrite (main_bundle h o p i b Hi Hb), Hprod.
  do 5 eexists. split; [reflexivity|]. simpl.
  do 2 (split; [reflexivity|]). rewrite !prop_umd_output.
  destruct (bundle_override p "file") as [v|]; [done|].
  split; [reflexivity|]. split.
  - intros stem ->. by rewrite replace_js_suffix_ends.
  - intros Hs. by rewrite replace_js_suffix_other.
Qed.

Lemma minified_file_witness :
  exists c0 cu cm du dm,
    main ts_project production_options bundle_pkg = Ok [c0; cu; cm]
    /\ output cu = OutputObject du
    /\ output cm = OutputObject dm
    /\ prop du "file" = JStr "/repo/dist/bounds.js"
    /\ prop dm "file" = JStr "/repo/dist/bounds.min.js".
Proof.
  destruct (minified_file ts_project production_options bundle_pkg
              "/repo/src/index.ts" "dist/bounds.js" eq_refl eq_refl eq_refl)
    as (c0 & cu & cm & du & dm & Hm & Hu & Hd & Hfile & Hmin & _).
  exists c0, cu, cm, du, dm. do 4 (split; [done|]).
  exact (Hmin "/repo/dist/bounds" eq_refl).
Defined.

Lemma minified_file_counterexample :
  let p := with_bundleOutput bundle_pkg {[ "file" := JStr "/repo/dist/custom.js" ]} in
  exists c0 cu cm du dm,
    main ts_project production_options p = Ok [c0; cu; cm]
    /\ output cu = OutputObject du
    /\ output cm = OutputObject dm
    /\ prop du "file" = JStr "/repo/dist/custom.js"
    /\ prop dm "file" = JStr "/repo/dist/custom.js"
    /\ replace_js_suffix "/repo/dist/custom.js" = "/repo/dist/custom.min.js"
    /\ prop dm "file" <> JStr "/repo/dist/custom.min.js".
Proof.
  eexists _, _, _, _, _. split; [reflexivity|]. by repeat split.
Qed.

End rollup_facts.

(** * Properties of the runner *)

Section runner_facts.
Import ApiExtractor.
Implicit Types (h : Host) (o : Options) (env : Setup) (p : Package).
Implicit Types (projectPackages : list Package).
Implicit Types (pkg : gmap string jsval) (pkgs : list (gmap string jsval)).
Implicit Types (cs : option CompilerState) (events : list Event).

(** *** Lines 32-34: the annotated copies *)

Lemma set_location_lookup projectPackages (jsons : list (gmap string jsval)) (i j : nat) :
  set_location projectPackages jsons i !! j =
    if decide (i = j)
    then match jsons !! i, projectPackages !! i with
         | Some pkgJson, Some p => Some (<["location" := JStr (location p)]> pkgJson)
         | _, _ => jsons !! i
         end
    else jsons !! j.
Proof.
  unfold set_location.
  destruct (jsons !! i) as [pkgJson|] eqn:Hi, (projectPackages !! i) as [p|];
    case_decide as Hij; subst; try done.
  - apply list_lookup_insert_eq. by eapply lookup_lt_Some.
  - by apply list_lookup_insert_ne.
Qed.

Lemma foldl_set_location_lookup projectPackages (k j : nat) :
  foldl (set_location projectPackages) (manifest <$> projectPackages) (seq 0 k) !! j =
    if decide (j < k) then with_location <$> projectPackages !! j
    else manifest <$> projectPackages !! j.
Proof.
  revert j. induction k as [|k IH]; intros j.
  - simpl. by rewrite list_lookup_fmap.
  - rewrite seq_S, foldl_app. simpl. rewrite set_location_lookup.
    destruct (decide (k = j)) as [<-|Hkj].
    + rewrite IH, decide_False, decide_True by lia.
      by destruct (projectPackages !! k) as [p|].
    + rewrite IH. destruct (decide (j < k)).
      * by rewrite decide_True by lia.
      * by rewrite decide_False by lia.
Qed.

Lemma projectPackageJsons_annotated projectPackages :
  projectPackageJsons projectPackages = with_location <$> projectPackages.
Proof.
  unfold projectPackageJsons. apply list_eq. intros j.
  rewrite foldl_set_location_lookup, length_fmap, list_lookup_fmap.
  case_decide as Hj; [done|].
  by rewrite lookup_ge_None_2 by lia.
Qed.

Lemma has_entry_with_location h p : has_entry h (with_location p) = has_index h p.
Proof.
  unfold has_entry, has_index, with_location, prop. by rewrite lookup_insert_eq.
Qed.

Lemma filter_fmap {A B : Type} (f : A -> B) (t : B -> bool) (l : list A) :
  List.filter t (f <$> l) = f <$> List.filter (fun x => t (f x)) l.
Proof.
  induction l as [|x l IH]; [done|]. csimpl. rewrite IH. by destruct (t (f x)).
Qed.

Lemma packageJsons_selected h projectPackages :
  packageJsons h projectPackages =
    with_location <$> List.filter (has_index h) projectPackages.
Proof.
  unfold packageJsons. rewrite projectPackageJsons_annotated, filter_fmap.
  f_equal. apply filter_ext. intros p. apply has_entry_with_location.
Qed.

(** *** One iteration *)

Lemma invocations_app events events' :
  invocations (events ++ events') = invocations events ++ invocations events'.
Proof. apply omap_app. Qed.

Lemma preparations_app events events' :
  preparations (events ++ events') = preparations events ++ preparations events'.
Proof. apply omap_app. Qed.

Lemma creations_app events events' :
  creations (events ++ events') = creations events ++ creations events'.
Proof. apply omap_app. Qed.

Lemma extract_cases h o env cs pkg :
  let cfg := prepare_argument h env pkg in
  let state := default {| created_from := cfg |} cs in
  let before :=
    [header pkg; prepare cfg] ++ (if cs is Some _ then [] else [create cfg]) in
  match ExtractorConfig_prepare h cfg with
  | Throw e => extract h o env cs pkg = ([header pkg; prepare cfg], Fail e)
  | Ok _ =>
      match (if cs is Some _ then Ok tt else CompilerState_create h cfg) with
      | Throw e => extract h o env cs pkg = (before, Fail e)
      | Ok _ =>
          extract h o env cs pkg =
            (before ++ (invoke_and_report h o pkg cfg state).1,
             (invoke_and_report h o pkg cfg state).2)
      end
  end.
Proof.
  intros cfg state before. subst before state cfg. unfold extract, shared_state.
  destruct (ExtractorConfig_prepare h _) as [[]|e]; [|done].
  destruct cs as [st|]; simpl.
  - by destruct (invoke_and_report h o pkg _ st).
  - destruct (CompilerState_create h _) as [[]|e]; [|done].
    by destruct (invoke_and_report h o pkg _ _).
Qed.

Lemma extract_calls h o env cs pkg :
  calls_extractor h env cs pkg ->
  let cfg := prepare_argument h env pkg in
  let state := default {| created_from := cfg |} cs in
  extract h o env cs pkg =
    (([header pkg; prepare cfg] ++ (if cs is Some _ then [] else [create cfg]))
       ++ (invoke_and_report h o pkg cfg state).1,
     (invoke_and_report h o pkg cfg state).2).
Proof.
  intros [Hprepare Hcreate] cfg state.
  pose proof (extract_cases h o env cs pkg) as Hcases. cbv zeta in Hcases.
  fold cfg in Hcases, Hprepare, Hcreate. rewrite Hprepare in Hcases.
  destruct cs as [st|]; [done|]. by rewrite Hcreate in Hcases.
Qed.

Lemma invoke_and_report_cases h o pkg cfg state :
  match Extractor_invoke h cfg (showVerboseMessages o) state with
  | Thrown e =>
      invoke_and_report h o pkg cfg state =
        ([ invoke cfg (showVerboseMessages o) state;
           console_log (to_display (prop pkg "name") +:+ " failed:");
           console_error e ], Exit 1)
  | Returned r =>
      if succeeded r then
        invoke_and_report h o pkg cfg state =
          ([ invoke cfg (showVerboseMessages o) state;
             console_error (to_display (prop pkg "name")
                              +:+ ": completed successfully!") ],
           Continue (Some state))
      else
        invoke_and_report h o pkg cfg state =
          ([ invoke cfg (showVerboseMessages o) state;
             console_error
               (to_display (prop pkg "name") +:+ ": completed with "
                  +:+ pretty (errorCount r) +:+ " errors and "
                  +:+ pretty (warningCount r) +:+ " warnings") ],
           if (0 <? errorCount r)%nat then Exit 1 else Continue (Some state))
  end.
Proof.
  unfold invoke_and_report, verbose.
  destruct (Extractor_invoke h _ _ _) as [e|r]; [done|].
  destruct (succeeded r); [done|]. by destruct (0 <? errorCount r)%nat.
Qed.

Lemma invoke_and_report_next h o pkg cfg state :
  (invoke_and_report h o pkg cfg state).2 =
    if goes_on (Extractor_invoke h cfg (showVerboseMessages o) state)
    then Continue (Some state) else Exit 1.
Proof.
  pose proof (invoke_and_report_cases h o pkg cfg state) as Hcases. unfold goes_on.
  destruct (Extractor_invoke h _ _ _) as [e|r]; [by rewrite Hcases|].
  destruct (succeeded r); rewrite Hcases; [done|]. simpl.
  by destruct (errorCount r).
Qed.

Lemma invoke_and_report_invocations h o pkg cfg state :
  invocations (invoke_and_report h o pkg cfg state).1 = [cfg]
  /\ preparations (invoke_and_report h o pkg cfg state).1 = []
  /\ creations (invoke_and_report h o pkg cfg state).1 = [].
Proof.
  pose proof (invoke_and_report_cases h o pkg cfg state) as Hcases.
  destruct (Extractor_invoke h _ _ _) as [e|r]; [by rewrite Hcases|].
  destruct (succeeded r); by rewrite Hcases.
Qed.

(** An [invoke] event of one iteration is the call made for its package,
    and the iteration then got as far as that call. *)
Lemma extract_invoke_inv h o env cs pkg cfg v state :
  invoke cfg v state ∈ (extract h o env cs pkg).1 ->
  cfg = prepare_argument h env pkg /\ v = showVerboseMessages o
  /\ state = default {| created_from := prepare_argument h env pkg |} cs
  /\ calls_extractor h env cs pkg.
Proof.
  pose proof (extract_cases h o env cs pkg) as Hcases. cbv zeta in Hcases.
  unfold calls_extractor.
  destruct (ExtractorConfig_prepare h _) as [[]|e].
  - destruct cs as [st|]; simpl in *.
    + rewrite Hcases. clear Hcases.
      pose proof (invoke_and_report_cases h o pkg (prepare_argument h env pkg) st) as Hc.
      intros Hin. simpl in Hin.
      do 2 (apply elem_of_cons in Hin as [Heq | Hin]; [discriminate Heq|]).
      destruct (Extractor_invoke h _ _ _) as [e|r]; [|destruct (succeeded r)];
        rewrite Hc in Hin; simpl in Hin;
        repeat (apply elem_of_cons in Hin as [Heq | Hin];
                [first [discriminate Heq | by injection Heq as -> -> ->]|]);
        by apply elem_of_nil in Hin.
    + destruct (CompilerState_create h _) as [[]|e].
      * rewrite Hcases. clear Hcases.
        pose proof (invoke_and_report_cases h o pkg (prepare_argument h env pkg)
                      {| created_from := prepare_argument h env pkg |}) as Hc.
        intros Hin. simpl in Hin.
        do 3 (apply elem_of_cons in Hin as [Heq | Hin]; [discriminate Heq|]).
        destruct (Extractor_invoke h _ _ _) as [e|r]; [|destruct (succeeded r)];
          rewrite Hc in Hin; simpl in Hin;
          repeat (apply elem_of_cons in Hin as [Heq | Hin];
                  [first [discriminate Heq | by injection Heq as -> -> ->]|]);
          by apply elem_of_nil in Hin.
      * rewrite Hcases. intros Hin. simpl in Hin.
        do 3 (apply elem_of_cons in Hin as [Heq | Hin]; [discriminate Heq|]).
        by apply elem_of_nil in Hin.
  - rewrite Hcases. intros Hin.
    do 2 (apply elem_of_cons in Hin as [Heq | Hin]; [discriminate Heq|]).
    by apply elem_of_nil in Hin.
Qed.

(** What one iteration leaves behind: it went on or stopped the process
    after having called the extractor, or it failed before that call. *)
Lemma extract_outcome h o env cs pkg :
  let cfg := prepare_argument h env pkg in
  let state := default {| created_from := cfg |} cs in
  (calls_extractor h env cs pkg
   /\ invocations (extract h o env cs pkg).1 = [cfg]
   /\ invoke cfg (showVerboseMessages o) state ∈ (extract h o env cs pkg).1
   /\ (extract h o env cs pkg).2 =
        if goes_on (Extractor_invoke h cfg (showVerboseMessages o) state)
        then Continue (Some state) else Exit 1)
  \/ (~ calls_extractor h env cs pkg
      /\ invocations (extract h o env cs pkg).1 = []
      /\ exists e, (extract h o env cs pkg).2 = Fail e).
Proof.
  intros cfg state. pose proof (extract_cases h o env cs pkg) as Hcases.
  cbv zeta in Hcases. fold cfg in Hcases. fold state in Hcases.
  unfold calls_extractor. fold cfg.
  destruct (ExtractorConfig_prepare h cfg) as [[]|e];
    [|right; rewrite Hcases; split; [by intros [? _]|]; split; [done|]; eauto].
  destruct cs as [st|]; simpl in Hcases.
  - left. rewrite Hcases. cbn [fst snd]. split; [done|].
    rewrite invoke_and_report_next.
    destruct (invoke_and_report_invocations h o pkg cfg state) as (Hi & _).
    split; [exact Hi|]. split; [|done].
    repeat apply list_elem_of_further.
    pose proof (invoke_and_report_cases h o pkg cfg state) as Hc.
    destruct (Extractor_invoke h _ _ _) as [e|r]; [|destruct (succeeded r)];
      rewrite Hc; apply list_elem_of_here.
  - destruct (CompilerState_create h cfg) as [[]|e];
      [|right; rewrite Hcases; split; [intros [_ Hc]; by specialize (Hc eq_refl)|];
        split; [done|]; eauto].
    left. rewrite Hcases. cbn [fst snd]. split; [done|].
    rewrite invoke_and_report_next.
    destruct (invoke_and_report_invocations h o pkg cfg state) as (Hi & _).
    split; [exact Hi|]. split; [|done].
    repeat apply list_elem_of_further.
    pose proof (invoke_and_report_cases h o pkg cfg state) as Hc.
    destruct (Extractor_invoke h _ _ _) as [e|r]; [|destruct (succeeded r)];
      rewrite Hc; apply list_elem_of_here.
Qed.

Lemma extract_prepare_event h o env cs pkg :
  prepare (prepare_argument h env pkg) ∈ (extract h o env cs pkg).1
  /\ (ExtractorConfig_prepare h (prepare_argument h env pkg) = Ok tt -> cs = None ->
      create (prepare_argument h env pkg) ∈ (extract h o env cs pkg).1).
Proof.
  pose proof (extract_cases h o env cs pkg) as Hcases. cbv zeta in Hcases.
  destruct (ExtractorConfig_prepare h _) as [[]|e].
  - destruct cs as [st|]; simpl in Hcases.
    + rewrite Hcases. split; [|done]. apply list_elem_of_further, list_elem_of_here.
    + destruct (CompilerState_create h _) as [[]|e]; rewrite Hcases;
        (split; [apply list_elem_of_further, list_elem_of_here|]); intros _ _;
        do 2 apply list_elem_of_further; apply list_elem_of_here.
  - rewrite Hcases. split; [apply list_elem_of_further, list_elem_of_here | done].
Qed.

(** *** The loop *)

Lemma forEach_cons h o env cs pkg pkgs :
  forEach h o env cs (pkg :: pkgs) =
    match (extract h o env cs pkg).2 with
    | Continue cs' =>
        ((extract h o env cs pkg).1 ++ (forEach h o env cs' pkgs).1,
         (forEach h o env cs' pkgs).2)
    | stopped => ((extract h o env cs pkg).1, stopped)
    end.
Proof.
  simpl. destruct (extract h o env cs pkg) as [events [cs'|code|e]]; simpl; [|done..].
  by destruct (forEach h o env cs' pkgs).
Qed.

Lemma forEach_app h o env cs pkgs pkgs' :
  forEach h o env cs (pkgs ++ pkgs') =
    match (forEach h o env cs pkgs).2 with
    | Continue cs' =>
        ((forEach h o env cs pkgs).1 ++ (forEach h o env cs' pkgs').1,
         (forEach h o env cs' pkgs').2)
    | stopped => ((forEach h o env cs pkgs).1, stopped)
    end.
Proof.
  revert cs. induction pkgs as [|pkg pkgs IH]; intros cs.
  - simpl. by destruct (forEach h o env cs pkgs').
  - rewrite <- app_comm_cons, !forEach_cons.
    destruct (extract h o env cs pkg).2 as [cs'|code|e]; [|done..].
    rewrite IH. cbn [fst snd].
    destruct (forEach h o env cs' pkgs).2; cbn [fst snd]; [|done..].
    by rewrite app_assoc.
Qed.

(** The invocations of a run are made for the packages of the list, one
    each and in order, up to the package that stopped the run. *)
Lemma forEach_invocations_prefix h o env cs pkgs :
  invocations (forEach h o env cs pkgs).1 `prefix_of` prepare_argument h env <$> pkgs.
Proof.
  revert cs. induction pkgs as [|pkg pkgs IH]; intros cs; [done|].
  rewrite forEach_cons.
  destruct (extract_outcome h o env cs pkg) as [(_ & Hone & _ & Hnext)|(_ & Hnone & e & Hnext)];
    rewrite Hnext.
  - destruct (goes_on _); cbn [fst snd].
    + rewrite invocations_app, Hone. simpl. apply prefix_cons, IH.
    + rewrite Hone. simpl. apply prefix_cons, prefix_nil.
  - cbn [fst]. rewrite Hnone. apply prefix_nil.
Qed.

(** When no call that is made throws or reports errors, every package of
    the list is extracted. *)
Lemma forEach_completes h o env cs pkgs :
  (forall cfg, prepare cfg ∈ (forEach h o env cs pkgs).1 ->
     ExtractorConfig_prepare h cfg = Ok tt) ->
  (forall cfg, create cfg ∈ (forEach h o env cs pkgs).1 ->
     CompilerState_create h cfg = Ok tt) ->
  (forall cfg v state, invoke cfg v state ∈ (forEach h o env cs pkgs).1 ->
     goes_on (Extractor_invoke h cfg v state) = true) ->
  invocations (forEach h o env cs pkgs).1 = prepare_argument h env <$> pkgs
  /\ exists cs', (forEach h o env cs pkgs).2 = Continue cs'.
Proof.
  revert cs. induction pkgs as [|pkg pkgs IH]; intros cs Hprepare Hcreate Hinvoke;
    [simpl; eauto|].
  rewrite forEach_cons in *.
  destruct (extract_prepare_event h o env cs pkg) as [Hp Hc].
  assert (forall event, event ∈ (extract h o env cs pkg).1 ->
            event ∈ (match (extract h o env cs pkg).2 with
                     | Continue cs' =>
                         ((extract h o env cs pkg).1 ++ (forEach h o env cs' pkgs).1,
                          (forEach h o env cs' pkgs).2)
                     | stopped => ((extract h o env cs pkg).1, stopped)
                     end).1) as Hhere.
  { intros event Hin. destruct (extract h o env cs pkg).2; cbn [fst]; [|done..].
    apply elem_of_app. by left. }
  destruct (extract_outcome h o env cs pkg)
    as [(_ & Hone & Hcalled & Hnext)|(Hnot & _)].
  - rewrite (Hinvoke _ _ _ (Hhere _ Hcalled)) in Hnext.
    rewrite Hnext in *. cbn [fst snd] in *.
    destruct (IH (Some (default {| created_from := prepare_argument h env pkg |} cs)))
      as [Hinv Hcont].
    + intros cfg Hin. apply Hprepare, elem_of_app. by right.
    + intros cfg Hin. apply Hcreate, elem_of_app. by right.
    + intros cfg v st Hin. apply Hinvoke, elem_of_app. by right.
    + by rewrite invocations_app, Hone, Hinv.
  - destruct Hnot. split.
    + apply Hprepare, Hhere, Hp.
    + intros ->. apply Hcreate, Hhere, Hc; [|done]. apply Hprepare, Hhere, Hp.
Qed.

Lemma main_Ok h o env projectPackages :
  setup h o = Ok env ->
  getPackages h (cwd h) = Ok projectPackages ->
  main h o = ((forEach h o env None (packageJsons h projectPackages)).1,
              status_of (forEach h o env None (packageJsons h projectPackages)).2).
Proof.
  intros Hs Hl. unfold main. rewrite Hs, Hl.
  by destruct (forEach h o env None (packageJsons h projectPackages)).
Qed.

Lemma main_Throw h o msg : setup h o = Throw msg -> main h o = ([], Rejected msg).
Proof. intros Hs. unfold main. by rewrite Hs. Qed.

Lemma main_unlisted h o env e :
  setup h o = Ok env -> getPackages h (cwd h) = Throw e -> main h o = ([], Rejected e).
Proof. intros Hs Hl. unfold main. by rewrite Hs, Hl. Qed.

(** A run that prints or calls anything has found its configuration and
    its packages. *)
Lemma main_started h o :
  (main h o).1 <> [] ->
  exists env projectPackages,
    setup h o = Ok env /\ getPackages h (cwd h) = Ok projectPackages.
Proof.
  intros Hne. destruct (setup h o) as [env|msg] eqn:Hs;
    [|by rewrite (main_Throw h o msg Hs) in Hne].
  destruct (getPackages h (cwd h)) as [pkgs|e] eqn:Hl;
    [eauto | by rewrite (main_unlisted h o env e Hs Hl) in Hne].
Qed.

Lemma forEach_Thrown h o env cs pkgs cfg v state e :
  invoke cfg v state ∈ (forEach h o env cs pkgs).1 ->
  Extractor_invoke h cfg v state = Thrown e ->
  exists before,
    forEach h o env cs pkgs =
      (before ++ [ invoke cfg v state;
                   console_log (to_display (prop (packageJson cfg) "name") +:+ " failed:");
                   console_error e ],
       Exit 1).
Proof.
  revert cs. induction pkgs as [|pkg pkgs IH]; intros cs Hin Hthrown.
  - by apply elem_of_nil in Hin.
  - rewrite forEach_cons in *.
    assert (invoke cfg v state ∈ (extract h o env cs pkg).1
            \/ exists cs', (extract h o env cs pkg).2 = Continue cs'
                 /\ invoke cfg v state ∈ (forEach h o env cs' pkgs).1) as [Hhere|Hlater].
    { destruct (extract h o env cs pkg).2 as [cs'|code|e']; cbn [fst] in Hin;
        [|by left..].
      apply elem_of_app in Hin as [?|?]; [by left | right; eauto]. }
    + apply extract_invoke_inv in Hhere as (-> & -> & -> & Hcalls).
      rewrite (extract_calls h o env cs pkg Hcalls).
      pose proof (invoke_and_report_cases h o pkg (prepare_argument h env pkg)
                    (default {| created_from := prepare_argument h env pkg |} cs))
        as Hreport.
      rewrite Hthrown in Hreport. rewrite Hreport. cbn [fst snd]. eauto.
    + destruct Hlater as (cs' & -> & Hin').
      destruct (IH cs' Hin' Hthrown) as [before Heq]. rewrite Heq. cbn [fst snd].
      exists ((extract h o env cs pkg).1 ++ before). by rewrite app_assoc.
Qed.

(** C6. Whenever a call of [Extractor.invoke] made by the runner throws,
    the run ends right there: after the call come the two log entries
    (the "failed" line and the error) and nothing else, so no later
    package is touched, and the process exits with code 1. *)
Theorem extractor_crash h o cfg v state e :
  invoke cfg v state ∈ (main h o).1 ->
  Extractor_invoke h cfg v state = Thrown e ->
  exists before,
    main h o =
      (before ++ [ invoke cfg v state;
                   console_log (to_display (prop (packageJson cfg) "name") +:+ " failed:");
                   console_error e ],
       Exited 1)
    /\ last (invocations (main h o).1) = Some cfg.
Proof.
  intros Hin Hthrown.
  destruct (main_started h o) as (env & pkgs & Hs & Hl).
  { intros Hnil. rewrite Hnil in Hin. by apply elem_of_nil in Hin. }
  rewrite (main_Ok h o env pkgs Hs Hl) in *. cbn [fst] in Hin.
  destruct (forEach_Thrown h o env None _ cfg v state e Hin Hthrown) as [before Heq].
  exists before. rewrite Heq. cbn [fst snd status_of]. split; [done|].
  rewrite invocations_app. simpl. apply last_snoc.
Qed.

(** C7. When the call made for a package returns a result that did not
    succeed, the runner prints the error and warning counts; with a
    nonzero error count the process exits with code 1 right after that
    line, and with no errors the run goes on with the packages that
    follow. *)
Theorem unsuccessful_extraction h o env projectPackages pre pkg post events cs r :
  setup h o = Ok env ->
  getPackages h (cwd h) = Ok projectPackages ->
  packageJsons h projectPackages = pre ++ pkg :: post ->
  forEach h o env None pre = (events, Continue cs) ->
  calls_extractor h env cs pkg ->
  let cfg := prepare_argument h env pkg in
  let state := default {| created_from := cfg |} cs in
  Extractor_invoke h cfg (showVerboseMessages o) state = Returned r ->
  succeeded r = false ->
  let counts :=
    console_error (to_display (prop pkg "name") +:+ ": completed with "
                     +:+ pretty (errorCount r) +:+ " errors and "
                     +:+ pretty (warningCount r) +:+ " warnings") in
  exists before,
    (errorCount r <> 0 ->
       main h o = (before ++ [invoke cfg (showVerboseMessages o) state; counts], Exited 1))
    /\ (errorCount r = 0 ->
        main h o =
          (before ++ [invoke cfg (showVerboseMessages o) state; counts]
             ++ (forEach h o env (Some state) post).1,
           status_of (forEach h o env (Some state) post).2)).
Proof.
  intros Hs Hl Hsel Hpre Hcalls cfg state Hret Hfail counts.
  pose proof (extract_calls h o env cs pkg Hcalls) as Hstep. cbv zeta in Hstep.
  pose proof (invoke_and_report_cases h o pkg cfg state) as Hreport.
  rewrite Hret, Hfail in Hreport. fold cfg in Hstep. fold state in Hstep.
  rewrite Hreport in Hstep. cbn [fst snd] in Hstep.
  exists (events ++ [header pkg; prepare cfg] ++ if cs is Some _ then [] else [create cfg]).
  rewrite (main_Ok h o env projectPackages Hs Hl), Hsel, forEach_app, Hpre.
  cbn [fst snd]. rewrite forEach_cons, Hstep. cbn [fst snd]. split.
  - intros Hne. destruct (Nat.ltb_spec 0 (errorCount r)); [|lia].
    cbn [fst snd status_of]. by rewrite <- !app_assoc.
  - intros Hzero. destruct (Nat.ltb_spec 0 (errorCount r)); [lia|].
    cbn [fst snd]. by rewrite <- !app_assoc.
Qed.

Lemma extractor_crash_witness :
  let h := workspace crash_in_a in
  let env := {| setup_tsconfigJson := "/repo/tsconfig.json";
                setup_outDir := "/repo/compiled" |} in
  let cfg := prepare_argument h env (with_location pkg_a) in
  exists before,
    main h no_options =
      (before ++ [ invoke cfg None {| created_from := cfg |};
                   console_log "a failed:";
                   console_error "Error: cannot read index.d.ts" ],
       Exited 1)
    /\ last (invocations (main h no_options).1) = Some cfg.
Proof.
  intros h env cfg.
  apply (extractor_crash h no_options cfg None {| created_from := cfg |}
           "Error: cannot read index.d.ts").
  - vm_compute. do 3 apply list_elem_of_further. apply list_elem_of_here.
  - reflexivity.
Defined.

Lemma unsuccessful_extraction_witness :
  let h := workspace warnings_in_a in
  let env := {| setup_tsconfigJson := "/repo/tsconfig.json";
                setup_outDir := "/repo/compiled" |} in
  let cfg := prepare_argument h env (with_location pkg_a) in
  let state := {| created_from := cfg |} in
  exists before,
    main h no_options =
      (before ++ [ invoke cfg None state;
                   console_error "a: completed with 0 errors and 2 warnings" ]
         ++ (forEach h no_options env (Some state) [with_location pkg_b]).1,
       status_of (forEach h no_options env (Some state) [with_location pkg_b]).2).
Proof.
  intros h env cfg state.
  destruct (unsuccessful_extraction h no_options env [pkg_a; pkg_docs; pkg_b] []
              (with_location pkg_a) [with_location pkg_b] [] None
              {| succeeded := false; errorCount := 0; warningCount := 2 |}
              eq_refl eq_refl eq_refl eq_refl (conj eq_refl (fun _ => eq_refl))
              eq_refl eq_refl) as [before [_ Hgoes_on]].
  exists before. exact (Hgoes_on eq_refl).
Defined.

(** C8, as the code has it. The calls of [Extractor.invoke] are made
    for the listed packages that have a [src/index.ts], one call per
    package and in workspace order, up to the first package whose
    extraction ends the run; so there are at most M calls, M being the
    number of such packages.  There are exactly M calls, one for each of
    them, and the run resolves, when the configuration is found and no
    call that is made (of [ExtractorConfig.prepare],
    [CompilerState.create] or [Extractor.invoke]) throws or reports
    errors. *)
Theorem extraction_invocations h o projectPackages :
  getPackages h (cwd h) = Ok projectPackages ->
  let selected := List.filter (has_index h) projectPackages in
  (forall env, setup h o = Ok env ->
     invocations (main h o).1
       `prefix_of` (fun p => prepare_argument h env (with_location p)) <$> selected)
  /\ length (invocations (main h o).1) <= length selected
  /\ (forall env, setup h o = Ok env ->
      (forall cfg, prepare cfg ∈ (main h o).1 -> ExtractorConfig_prepare h cfg = Ok tt) ->
      (forall cfg, create cfg ∈ (main h o).1 -> CompilerState_create h cfg = Ok tt) ->
      (forall cfg v state, invoke cfg v state ∈ (main h o).1 ->
         goes_on (Extractor_invoke h cfg v state) = true) ->
      invocations (main h o).1
        = (fun p => prepare_argument h env (with_location p)) <$> selected
      /\ length (invocations (main h o).1) = length selected
      /\ (main h o).2 = Resolved).
Proof.
  intros Hl selected.
  assert (forall env, setup h o = Ok env ->
            invocations (main h o).1
              `prefix_of` (fun p => prepare_argument h env (with_location p)) <$> selected)
    as Hprefix.
  { intros env Hs. rewrite (main_Ok h o env _ Hs Hl), packageJsons_selected. cbn [fst].
    pose proof (forEach_invocations_prefix h o env None (with_location <$> selected))
      as Hp.
    rewrite <- list_fmap_compose in Hp. exact Hp. }
  split; [done|]. split.
  - destruct (setup h o) as [env|msg] eqn:Hs.
    + pose proof (prefix_length _ _ (Hprefix env eq_refl)) as Hle.
      by rewrite length_fmap in Hle.
    + rewrite (main_Throw h o msg Hs). simpl. lia.
  - intros env Hs Hprepare Hcreate Hinvoke.
    rewrite (main_Ok h o env _ Hs Hl) in *. cbn [fst snd] in *.
    destruct (forEach_completes h o env None (packageJsons h projectPackages)
                Hprepare Hcreate Hinvoke) as [Hinv [cs' Hnext]].
    rewrite Hinv, Hnext, packageJsons_selected, <- list_fmap_compose, length_fmap.
    done.
Qed.

Lemma extraction_invocations_witness :
  let h := workspace warnings_in_a in
  length (List.filter (has_index h) [pkg_a; pkg_docs; pkg_b]) = 2
  /\ length (invocations (main h no_options).1) = 2
  /\ (main h no_options).2 = Resolved.
Proof.
  intros h. split; [reflexivity|].
  destruct (extraction_invocations h no_options [pkg_a; pkg_docs; pkg_b] eq_refl)
    as (_ & _ & Hexact).
  destruct (Hexact {| setup_tsconfigJson := "/repo/tsconfig.json";
                      setup_outDir := "/repo/compiled" |} eq_refl)
    as (_ & Hcount & Hstatus).
  - reflexivity.
  - reflexivity.
  - intros cfg v state Hin. vm_compute in Hin.
    repeat (apply elem_of_cons in Hin as [Heq | Hin];
            [first [discriminate Heq | by injection Heq as -> -> ->]|]).
    by apply elem_of_nil in Hin.
  - split; [exact Hcount | exact Hstatus].
Defined.

Lemma extraction_invocations_counterexample :
  let h := workspace crash_in_a in
  getPackages h (cwd h) = Ok [pkg_a; pkg_docs; pkg_b]
  /\ length (List.filter (has_index h) [pkg_a; pkg_docs; pkg_b]) = 2
  /\ length (invocations (main h no_options).1) = 1
  /\ (main h no_options).2 = Exited 1.
Proof. by repeat split. Qed.

(** *** Lines 31-34 on the heap *)

Lemma map_toJSON_appends (heap : list (gmap string jsval)) (PKGs : list nat) :
  (forall PKG, PKG ∈ PKGs -> PKG < length heap) ->
  map_toJSON heap PKGs =
    (heap ++ ((fun PKG => default ∅ (heap !! PKG)) <$> PKGs),
     seq (length heap) (length PKGs)).
Proof.
  revert heap. induction PKGs as [|PKG PKGs IH]; intros heap Hin.
  - simpl. by rewrite app_nil_r.
  - simpl. rewrite IH.
    + rewrite length_app. simpl. rewrite Nat.add_1_r, <- app_assoc. simpl.
      f_equal. f_equal. f_equal. apply list_fmap_ext. intros i a Ha.
      rewrite lookup_app_l; [done|]. apply Hin. apply list_elem_of_further.
      by eapply list_elem_of_lookup_2.
    + intros a Ha. rewrite length_app. simpl.
      specialize (Hin a (list_elem_of_further _ _ _ Ha)). lia.
Qed.

Lemma lookups_of_seq (heap : list (gmap string jsval)) :
  (fun PKG => default ∅ (heap !! PKG)) <$> seq 0 (length heap) = heap.
Proof.
  apply list_eq. intros i. rewrite list_lookup_fmap.
  destruct (heap !! i) as [obj|] eqn:Hi.
  - rewrite lookup_seq_lt by by eapply lookup_lt_Some. simpl. by rewrite Hi.
  - rewrite lookup_seq_ge; [done|]. by apply lookup_ge_None.
Qed.

Lemma assign_locations_lookup projectPackages (k j : nat) :
  let n := length projectPackages in
  let heap := manifest <$> projectPackages in
  k <= n ->
  foldl (fun heap i =>
           match seq n n !! i, (location <$> projectPackages) !! i with
           | Some pkgJson, Some location => assign_location heap pkgJson location
           | _, _ => heap
           end)
        (heap ++ heap) (seq 0 k) !! j =
    if decide (n <= j < n + k) then with_location <$> projectPackages !! (j - n)
    else (heap ++ heap) !! j.
Proof.
  intros n heap. revert j. induction k as [|k IH]; intros j Hk.
  - simpl. rewrite decide_False by lia. done.
  - rewrite seq_S, foldl_app. simpl.
    rewrite lookup_seq_lt by lia. rewrite list_lookup_fmap.
    destruct (projectPackages !! k) as [p|] eqn:Hp;
      [|apply lookup_ge_None in Hp; fold n in Hp; lia].
    simpl. unfold assign_location. rewrite IH by lia.
    rewrite decide_False by lia.
    assert ((heap ++ heap) !! (n + k) = Some (manifest p)) as Hobj.
    { rewrite lookup_app_r by (unfold heap; rewrite length_fmap; fold n; lia).
      unfold heap. rewrite length_fmap. fold n.
      replace (n + k - n) with k by lia. by rewrite list_lookup_fmap, Hp. }
    rewrite Hobj. destruct (decide (n + k = j)) as [<-|Hne].
    + rewrite list_lookup_insert_eq.
      * rewrite decide_True by lia. replace (n + k - n) with k by lia.
        by rewrite Hp.
      * apply lookup_lt_is_Some. rewrite IH by lia. rewrite decide_False by lia.
        by rewrite Hobj.
    + rewrite list_lookup_insert_ne by done. rewrite IH by lia.
      destruct (decide (n <= j < n + k)).
      * by rewrite decide_True by lia.
      * by rewrite decide_False by lia.
Qed.

Lemma discovery_heap projectPackages :
  discovery projectPackages =
    ((manifest <$> projectPackages) ++ (with_location <$> projectPackages),
     seq (length projectPackages) (length projectPackages)).
Proof.
  unfold discovery. rewrite map_toJSON_appends.
  - pose proof (lookups_of_seq (manifest <$> projectPackages)) as Hcopies.
    rewrite !length_fmap in *. rewrite Hcopies, length_seq. f_equal.
    unfold assign_locations. rewrite length_seq.
    apply list_eq. intros j.
    rewrite (assign_locations_lookup projectPackages (length projectPackages) j) by done.
    case_decide as Hj.
    + rewrite lookup_app_r by (rewrite length_fmap; lia).
      by rewrite length_fmap, list_lookup_fmap.
    + destruct (decide (j < length projectPackages)).
      * by rewrite !lookup_app_l by (rewrite length_fmap; lia).
      * rewrite !lookup_ge_None_2; [done| |];
          rewrite length_app, !length_fmap; lia.
  - intros a Ha. apply elem_of_seq in Ha. rewrite length_fmap. lia.
Qed.

(** C9. What [getPackages] returned is never written to.  With the
    manifest of the [i]-th listed package at address [i] when discovery
    ends, the same object is there after lines 32-34: no field of it was
    added, removed or changed.  The objects the runner writes the
    locations into are new ones, the copies made by [toJSON()]; they are
    the list that is then filtered, and the objects handed to the
    extractor are the selected ones, unchanged and in workspace order. *)
Theorem package_list_not_mutated h o projectPackages :
  getPackages h (cwd h) = Ok projectPackages ->
  let heap := (discovery projectPackages).1 in
  let pkgJsons := (discovery projectPackages).2 in
  (forall i p, projectPackages !! i = Some p -> heap !! i = Some (manifest p))
  /\ (forall pkgJson, pkgJson ∈ pkgJsons -> length projectPackages <= pkgJson)
  /\ (fun pkgJson => heap !! pkgJson) <$> pkgJsons
       = Some <$> projectPackageJsons projectPackages
  /\ packageJsons h projectPackages `sublist_of` projectPackageJsons projectPackages
  /\ packageJson <$> invocations (main h o).1 `prefix_of` packageJsons h projectPackages.
Proof.
  intros Hl heap pkgJsons. subst heap pkgJsons. rewrite discovery_heap. cbn [fst snd].
  split; [|split; [|split; [|split]]].
  - intros i p Hp. rewrite lookup_app_l by (rewrite length_fmap; by eapply lookup_lt_Some).
    by rewrite list_lookup_fmap, Hp.
  - intros a Ha. apply elem_of_seq in Ha. lia.
  - rewrite projectPackageJsons_annotated. apply list_eq. intros i.
    rewrite !list_lookup_fmap.
    destruct (projectPackages !! i) as [p|] eqn:Hp.
    + rewrite lookup_seq_lt by by eapply lookup_lt_Some. simpl.
      rewrite lookup_app_r by (rewrite length_fmap; lia).
      rewrite length_fmap. replace (length projectPackages + i - length projectPackages)
        with i by lia.
      by rewrite list_lookup_fmap, Hp.
    + rewrite lookup_seq_ge; [done|]. by apply lookup_ge_None.
  - unfold packageJsons. generalize (projectPackageJsons projectPackages). intros l.
    induction l as [|x l IH]; [done|]. simpl.
    destruct (has_entry h x); by constructor.
  - destruct (setup h o) as [env|msg] eqn:Hs.
    + rewrite (main_Ok h o env _ Hs Hl). cbn [fst].
      pose proof (forEach_invocations_prefix h o env None (packageJsons h projectPackages))
        as [rest Hp].
      exists (packageJson <$> rest).
      rewrite <- fmap_app, <- Hp, <- list_fmap_compose.
      symmetry. apply list_fmap_id.
    + rewrite (main_Throw h o msg Hs). apply prefix_nil.
Qed.

Lemma package_list_not_mutated_witness :
  let h := workspace all_succeed in
  let heap := (discovery [pkg_a; pkg_docs; pkg_b]).1 in
  heap !! 0 = Some (manifest pkg_a)
  /\ heap !! 3 = Some (<["location" := JStr "/repo/packages/a"]> (manifest pkg_a))
  /\ packageJson <$> invocations (main h no_options).1
       `prefix_of` packageJsons h [pkg_a; pkg_docs; pkg_b].
Proof.
  intros h heap.
  destruct (package_list_not_mutated h no_options [pkg_a; pkg_docs; pkg_b] eq_refl)
    as (Hsame & _ & _ & _ & Hhanded).
  split; [exact (Hsame 0 pkg_a eq_refl)|]. split; [reflexivity | exact Hhanded].
Defined.

End runner_facts.

(** * Further properties of the assembler *)

Section rollup_more.
Import Rollup.
Implicit Types (h : Host) (o : Options) (p : Manifest).
Implicit Types (c : Config) (d : gmap string jsval).

Lemma truthy_js_or (a b : option string) :
  truthy (js_or a b) =
    match truthy a with
    | Some s => Some s
    | None => truthy b
    end.
Proof.
  unfold js_or. destruct (truthy a) as [s|] eqn:Ha; [|done].
  apply truthy_Some in Ha as [_ Hs]. by apply truthy_nonempty.
Qed.

Lemma main_cases h o p cfgs :
  main h o p = Ok cfgs ->
  exists i config,
    resolve_input h o = Some i
    /\ config = {| plugins := base_plugins p; external := externals o p; input := i;
                  output := OutputArray (module_outputs h o p); treeshake := None |}
    /\ match truthy (js_or (opt_bundle o) (pkg_bundle p)) with
       | None => cfgs = [config]
       | Some b =>
           let file := path_join h (projectFolder h) b in
           let umd :=
             {| plugins := base_plugins p; external := externals o p; input := i;
                output := OutputObject (umd_output h o p file);
                treeshake := Some false |} in
           let min :=
             {| plugins := base_plugins p ++ [plugin_terser];
                external := externals o p; input := i;
                output := OutputObject (umd_output h o p (replace_js_suffix file));
                treeshake := Some false |} in
           cfgs = [config; umd] ++ if is_production h o then [min] else []
       end.
Proof.
  intros Hm. destruct (main_Ok_inv h o p cfgs Hm) as (i & Hi & _).
  exists i. eexists. split; [done|]. split; [reflexivity|].
  destruct (truthy (js_or (opt_bundle o) (pkg_bundle p))) as [b|] eqn:Hb.
  - rewrite (main_bundle h o p i b Hi Hb) in Hm. by injection Hm as <-.
  - rewrite (main_no_bundle h o p i Hi Hb) in Hm. by injection Hm as <-.
Qed.

(** X1. How many configurations are returned: one when no UMD path is
    configured (neither [options.bundle] nor the manifest's [bundle]);
    with a UMD path, three when [NODE_ENV] is [production] or
    [options.production] is true, and two otherwise. *)
Theorem configuration_count h o p cfgs :
  main h o p = Ok cfgs ->
  length cfgs =
    match truthy (opt_bundle o), truthy (pkg_bundle p) with
    | None, None => 1
    | _, _ =>
        if bool_decide (NODE_ENV h = Some "production")
           || default false (opt_production o)
        then 3 else 2
    end.
Proof.
  intros Hm. destruct (main_cases h o p cfgs Hm) as (i & config & _ & _ & Hcase).
  rewrite truthy_js_or in Hcase. unfold is_production, production in Hcase.
  destruct (truthy (opt_bundle o)), (truthy (pkg_bundle p)); subst cfgs; try done;
    by destruct (bool_decide _ || _).
Qed.

Lemma configuration_count_witness :
  exists cfgs,
    main (env_production ts_project) no_options bundle_pkg = Ok cfgs
    /\ length cfgs = 3.
Proof.
  eexists. split; [reflexivity|].
  exact (configuration_count (env_production ts_project) no_options bundle_pkg _ eq_refl).
Defined.

(** X2. All configurations of one result read the same entry file and
    have the same externals; they start with the same six plugins, and
    only the third one (the minified UMD build) adds terser, as its last
    plugin; tree shaking is switched off in the UMD configurations and
    left alone in the first one, which is the only one whose [output] is
    an array. *)
Theorem configurations_share h o p cfgs :
  main h o p = Ok cfgs ->
  forall (n : nat) c, cfgs !! n = Some c ->
    Some (input c) = input <$> head cfgs
    /\ Some (external c) = external <$> head cfgs
    /\ take 6 (plugins c) =
         [ plugin_sourcemaps; plugin_resolve; plugin_commonjs; plugin_sucrase;
           plugin_string; plugin_replace (pkg_version p) ]
    /\ (plugin_terser ∈ plugins c <-> n = 2)
    /\ (n = 2 -> last (plugins c) = Some plugin_terser)
    /\ treeshake c = (if decide (n = 0) then None else Some false)
    /\ ((exists ds, output c = OutputArray ds) <-> n = 0).
Proof.
  intros Hm n c Hc. destruct (main_cases h o p cfgs Hm) as (i & config & _ & -> & Hcase).
  assert (plugin_terser ∉ base_plugins p) as Hno.
  { unfold base_plugins. intros Hin.
    repeat (apply elem_of_cons in Hin as [Heq | Hin]; [discriminate Heq|]).
    by apply elem_of_nil in Hin. }
  assert (plugin_terser ∈ base_plugins p ++ [plugin_terser]) as Hyes.
  { apply elem_of_app. right. apply list_elem_of_here. }
  destruct (truthy (js_or (opt_bundle o) (pkg_bundle p))) as [b|];
    cbv zeta in Hcase; [destruct (is_production h o)|]; subst cfgs;
    repeat (destruct n as [|n]; simpl in Hc; try discriminate Hc);
    injection Hc as <-; simpl;
    (split; [done|]); (split; [done|]); (split; [done|]);
    (split; [first [by split; [intros ?%Hno | discriminate] | by split] |]);
    (split; [by intros; first [discriminate | done] |]);
    (split; [done|]);
    (split; [by intros [ds ?] | eauto; discriminate]).
Qed.

Lemma configurations_share_witness :
  exists cfgs c,
    main ts_project production_options bundle_pkg = Ok cfgs
    /\ cfgs !! 2 = Some c
    /\ (plugin_terser ∈ plugins c <-> 2 = 2)
    /\ Some (input c) = input <$> head cfgs.
Proof.
  eexists _, _. split; [reflexivity|]. split; [reflexivity|].
  destruct (configurations_share ts_project production_options bundle_pkg _ eq_refl
              2 _ eq_refl) as (Hinput & _ & _ & Hterser & _).
  split; [exact Hterser | exact Hinput].
Defined.

(** The descriptors of the first configuration are the module outputs. *)
Lemma array_descriptors h o p cfgs c (ds : list (gmap string jsval)) :
  main h o p = Ok cfgs -> c ∈ cfgs -> output c = OutputArray ds ->
  ds = module_outputs h o p.
Proof.
  intros Hm Hc Hd. destruct (main_cases h o p cfgs Hm) as (i & config & _ & -> & Hcase).
  destruct (truthy (js_or (opt_bundle o) (pkg_bundle p))) as [b|];
    cbv zeta in Hcase; [destruct (is_production h o)|]; subst cfgs;
    repeat (apply elem_of_cons in Hc as [-> | Hc];
            [first [by injection Hd as <- | discriminate Hd]|]);
    by apply elem_of_nil in Hc.
Qed.

(** X3. Every descriptor says whether to write a source map, and says
    what the caller asked for, [true] when the caller did not say: so it
    is for the cjs and esm descriptors, and for the UMD ones unless the
    manifest's [bundleOutput] sets [sourcemap] itself. *)
Theorem sourcemap_default h o p cfgs c :
  main h o p = Ok cfgs -> c ∈ cfgs ->
  let asked := match opt_sourcemap o with Some b => b | None => true end in
  (forall ds d, output c = OutputArray ds -> d ∈ ds ->
     d !! "sourcemap" = Some (JBool asked))
  /\ (forall d, output c = OutputObject d ->
        d !! "sourcemap" = Some (default (JBool asked) (bundle_override p "sourcemap"))).
Proof.
  intros Hm Hc asked. split.
  - intros ds d Hd Hin. rewrite (array_descriptors h o p cfgs c ds Hm Hc Hd) in Hin.
    unfold module_outputs in Hin. apply elem_of_app in Hin as [Hin|Hin].
    + destruct (truthy (js_or (opt_main o) (pkg_main p))); [|by apply elem_of_nil in Hin].
      by apply list_elem_of_singleton in Hin as ->.
    + destruct (truthy (js_or (opt_module o) (pkg_module p))); [|by apply elem_of_nil in Hin].
      by apply list_elem_of_singleton in Hin as ->.
  - intros d Hd. destruct (umd_descriptors h o p cfgs c d Hm Hc Hd) as [file ->].
    unfold umd_output, bundle_override, Object_assign.
    destruct (pkg_bundleOutput p) as [src|]; simpl; [|done].
    destruct (src !! "sourcemap") as [v|] eqn:Hk.
    + by erewrite lookup_union_Some_l.
    + by rewrite lookup_union_r.
Qed.

Lemma sourcemap_default_witness :
  exists cfgs c d,
    main ts_project no_options bundle_pkg = Ok cfgs
    /\ c ∈ cfgs
    /\ output c = OutputObject d
    /\ d !! "sourcemap" = Some (JBool true).
Proof.
  eexists _, _, _. split; [reflexivity|].
  split; [apply list_elem_of_further, list_elem_of_here|]. split; [reflexivity|].
  destruct (sourcemap_default ts_project no_options bundle_pkg _ _ eq_refl
              (list_elem_of_further _ _ _ (list_elem_of_here _ _))) as [_ Humd].
  exact (Humd _ eq_refl).
Defined.

(** *** The UMD name *)

Lemma replace_non_lower_stable (s : string) (run run' : bool) :
  run = true \/ run' = false ->
  replace_non_lower run' (replace_non_lower run s) = replace_non_lower run s.
Proof.
  revert run run'. induction s as [|ch s IH]; intros run run' Hrun; [done|].
  simpl. destruct (is_lower ch) eqn:Hch.
  - simpl. rewrite Hch. f_equal. apply IH. by right.
  - destruct run.
    + apply IH. by left.
    + destruct Hrun as [?| ->]; [done|]. simpl. f_equal. apply IH. by left.
Qed.

Lemma replace_non_lower_alphabet (s : string) (run : bool) (ch : ascii) :
  ch ∈ list_ascii_of_string (replace_non_lower run s) ->
  is_lower ch = true \/ ch = "_"%char.
Proof.
  revert run. induction s as [|a s IH]; intros run; simpl.
  - intros Hin. by apply elem_of_nil in Hin.
  - destruct (is_lower a) eqn:Ha; [|destruct run]; simpl.
    + intros [->|Hin]%elem_of_cons; [by left | by eapply IH].
    + apply IH.
    + intros [->|Hin]%elem_of_cons; [by right | by eapply IH].
Qed.

Lemma replace_non_lower_id (s : string) (run : bool) :
  (forall ch, ch ∈ list_ascii_of_string s -> is_lower ch = true) ->
  replace_non_lower run s = s.
Proof.
  revert run. induction s as [|a s IH]; intros run Hs; [done|]. simpl.
  rewrite (Hs a) by apply list_elem_of_here. f_equal.
  apply IH. intros ch Hch. apply Hs. by apply list_elem_of_further.
Qed.

(** X4. The [name] of a UMD descriptor (the global the bundle defines)
    is made of lower-case letters and underscores only, whatever the
    package is called: it is empty only for an empty package name, it
    is the package name itself when that is all lower-case letters, and
    cleaning it a second time changes nothing, so no two underscores
    follow each other.  A [name] in [bundleOutput] would replace it. *)
Theorem umd_name_clean h o p cfgs c d :
  main h o p = Ok cfgs -> c ∈ cfgs -> output c = OutputObject d ->
  bundle_override p "name" = None ->
  exists global : string,
    d !! "name" = Some (JStr global)
    /\ (forall ch, ch ∈ list_ascii_of_string global ->
          (97 <= nat_of_ascii ch <= 122) \/ ch = "_"%char)
    /\ (global = "" <-> pkg_name p = "")
    /\ ((forall ch, ch ∈ list_ascii_of_string (pkg_name p) ->
           97 <= nat_of_ascii ch <= 122) ->
        global = pkg_name p)
    /\ replace_non_lower false global = global.
Proof.
  intros Hm Hc Hd Hov. destruct (umd_descriptors h o p cfgs c d Hm Hc Hd) as [file ->].
  exists (name p). split.
  { unfold umd_output, bundle_override, Object_assign in *.
    destruct (pkg_bundleOutput p) as [src|]; simpl in *; [|done].
    by rewrite lookup_union_r. }
  unfold name. split; [|split; [|split]].
  - intros ch Hch. apply replace_non_lower_alphabet in Hch as [Hch| ->]; [left | by right].
    unfold is_lower in Hch. apply andb_true_iff in Hch as [?%Nat.leb_le ?%Nat.leb_le]. lia.
  - split; [|by intros ->].
    destruct (pkg_name p) as [|a s]; [done|]. simpl. by destruct (is_lower a).
  - intros Hs. apply replace_non_lower_id. intros ch Hch.
    unfold is_lower. apply andb_true_iff. split; apply Nat.leb_le; apply Hs in Hch; lia.
  - apply replace_non_lower_stable. by right.
Qed.

Lemma umd_name_clean_witness :
  exists cfgs c d,
    main ts_project no_options bundle_pkg = Ok cfgs
    /\ c ∈ cfgs /\ output c = OutputObject d
    /\ d !! "name" = Some (JStr "_pixi_essentials_bounds").
Proof.
  destruct (umd_name_clean ts_project no_options bundle_pkg _ _ _ eq_refl
              (list_elem_of_further _ _ _ (list_elem_of_here _ _)) eq_refl eq_refl)
    as (global & Hname & _).
  eexists _, _, _. split; [reflexivity|].
  split; [apply list_elem_of_further, list_elem_of_here|]. split; [reflexivity|].
  reflexivity.
Defined.

(** *** The namespace lines of the UMD banner *)

Lemma append_assoc (a b c' : string) : (a +:+ b) +:+ c' = a +:+ b +:+ c'.
Proof.
  induction a as [|ch a IH]; [done|].
  change (String ch ((a +:+ b) +:+ c') = String ch (a +:+ b +:+ c')).
  by rewrite IH.
Qed.

Lemma includes_dot_app (base rest : string) :
  includes_dot (base +:+ "." +:+ rest) = true.
Proof.
  induction base as [|ch base IH]; [done|]. simpl. by destruct (Ascii.eqb ch ".").
Qed.

Lemma before_dot_app (base rest : string) :
  includes_dot base = false -> before_dot (base +:+ "." +:+ rest) = base.
Proof.
  induction base as [|ch base IH]; [done|]. simpl.
  destruct (Ascii.eqb ch "."); [done|]. intros Hb. by rewrite IH.
Qed.

(** X5. For a package that is not standalone the UMD banner is the
    common banner followed by the lines that create the namespace
    object: one line for a namespace without a dot ([PIXI] when the
    manifest names none), and for a dotted namespace one line for its
    first segment followed by one line for the whole namespace; nothing
    is created for the segments in between. *)
Theorem namespace_banner h o p cfgs c d :
  main h o p = Ok cfgs -> c ∈ cfgs -> output c = OutputObject d ->
  default false (pkg_standalone p) = false ->
  bundle_override p "banner" = None ->
  let ns := match truthy (pkg_namespace p) with Some n => n | None => "PIXI" end in
  (includes_dot ns = false ->
     d !! "banner" =
       Some (JStr (banner h p +:+ nl +:+ "this." +:+ ns +:+ " = this." +:+ ns +:+ " || {};")))
  /\ (forall base rest,
        ns = base +:+ "." +:+ rest -> includes_dot base = false ->
        d !! "banner" =
          Some (JStr (banner h p +:+ nl
                        +:+ "this." +:+ base +:+ " = this." +:+ base +:+ " || {};" +:+ nl
                        +:+ "this." +:+ ns +:+ " = this." +:+ ns +:+ " || {};"))).
Proof.
  intros Hm Hc Hd Hst Hov ns.
  destruct (umd_descriptors h o p cfgs c d Hm Hc Hd) as [file ->].
  assert (umd_output h o p file !! "banner" = Some (JStr (umd_banner h p))) as ->.
  { unfold umd_output, bundle_override, Object_assign in *.
    destruct (pkg_bundleOutput p) as [src|]; simpl in *; [|done].
    by rewrite lookup_union_r. }
  unfold umd_banner, standalone. rewrite Hst. fold ns. change (Rollup.ns p) with ns.
  split.
  - by intros ->.
  - intros base rest Hns Hbase.
    assert (includes_dot ns = true) as -> by (rewrite Hns; apply includes_dot_app).
    assert (before_dot ns = base) as -> by (rewrite Hns; by apply before_dot_app).
    by rewrite !append_assoc.
Qed.

Lemma namespace_banner_witness :
  let p := with_namespace bundle_pkg "PIXI.tilemap.extras" in
  exists cfgs c d,
    main ts_project no_options p = Ok cfgs
    /\ c ∈ cfgs /\ output c = OutputObject d
    /\ d !! "banner" =
         Some (JStr (banner ts_project p +:+ nl
                       +:+ "this.PIXI = this.PIXI || {};" +:+ nl
                       +:+ "this.PIXI.tilemap.extras = this.PIXI.tilemap.extras || {};")).
Proof.
  intros p. eexists _, _, _. split; [reflexivity|].
  split; [apply list_elem_of_further, list_elem_of_here|]. split; [reflexivity|].
  destruct (namespace_banner ts_project no_options p _ _ _ eq_refl
              (list_elem_of_further _ _ _ (list_elem_of_here _ _)) eq_refl eq_refl eq_refl)
    as [_ Hdotted].
  exact (Hdotted "PIXI" "tilemap.extras" eq_refl eq_refl).
Defined.

(** X6. Whatever the manifest's [bundleOutput] says about a property
    holds in every UMD descriptor, also for properties the assembler
    does not set itself, and every property it is silent about keeps
    the assembler's value; the cjs and esm descriptors do not depend on
    [bundleOutput]. *)
Theorem bundleOutput_wins h o p cfgs c d :
  main h o p = Ok cfgs -> c ∈ cfgs -> output c = OutputObject d ->
  (forall k v, bundle_override p k = Some v -> d !! k = Some v)
  /\ (forall k, bundle_override p k = None ->
        k ∉ ["banner"; "file"; "format"; "globals"; "name"; "footer"; "sourcemap"] ->
        d !! k = None)
  /\ (forall src, module_outputs h o (with_bundleOutput p src) = module_outputs h o p).
Proof.
  intros Hm Hc Hd. destruct (umd_descriptors h o p cfgs c d Hm Hc Hd) as [file ->].
  unfold umd_output, bundle_override, Object_assign.
  split; [|split].
  - intros k v. destruct (pkg_bundleOutput p) as [src|]; simpl; [|done].
    intros Hk. by erewrite lookup_union_Some_l.
  - intros k Hk Hnot.
    assert (({[ "banner" := JStr (umd_banner h p); "file" := JStr file;
                "format" := JStr "umd"; "globals" := umd_globals h o;
                "name" := JStr (name p); "footer" := footer p;
                "sourcemap" := JBool (sourcemap o) ]} : gmap string jsval) !! k = None)
      as Hbase.
    { assert (forall k', k' ∈ ["banner"; "file"; "format"; "globals"; "name";
                                "footer"; "sourcemap"] -> k' <> k) as Hne
        by (intros k' Hin <-; by apply Hnot).
      rewrite !lookup_insert_ne, lookup_singleton_ne; [done|apply Hne..];
        repeat first [apply list_elem_of_here | apply list_elem_of_further]. }
    destruct (pkg_bundleOutput p) as [src|]; simpl in *; [|done].
    by rewrite lookup_union_r.
  - done.
Qed.

Lemma bundleOutput_wins_witness :
  let p := with_bundleOutput bundle_pkg {[ "exports" := JStr "named" ]} in
  exists cfgs c d,
    main ts_project no_options p = Ok cfgs
    /\ c ∈ cfgs /\ output c = OutputObject d
    /\ d !! "exports" = Some (JStr "named").
Proof.
  intros p. eexists _, _, _. split; [reflexivity|].
  split; [apply list_elem_of_further, list_elem_of_here|]. split; [reflexivity|].
  destruct (bundleOutput_wins ts_project no_options p _ _ _ eq_refl
              (list_elem_of_further _ _ _ (list_elem_of_here _ _)) eq_refl)
    as [Hwins _].
  exact (Hwins "exports" (JStr "named") eq_refl).
Defined.

(** X7. The [globals] table of a UMD descriptor maps a module to the
    global the caller gave for it in [options.globals], and to the one
    of the shared table of [@pixi-build-tools/globals] when the caller
    gave none; modules in neither table are not mentioned. *)
Theorem umd_globals_precedence h o p cfgs c d :
  main h o p = Ok cfgs -> c ∈ cfgs -> output c = OutputObject d ->
  bundle_override p "globals" = None ->
  exists table : gmap string jsval,
    d !! "globals" = Some (JObj table)
    /\ forall module,
        table !! module =
          match opt_globals o ≫= (fun given => given !! module) with
          | Some global => Some (JStr global)
          | None => JStr <$> globals h !! module
          end.
Proof.
  intros Hm Hc Hd Hov. destruct (umd_descriptors h o p cfgs c d Hm Hc Hd) as [file ->].
  exists (JStr <$> (options_globals o ∪ globals h)). split.
  - unfold umd_output, bundle_override, Object_assign in *.
    destruct (pkg_bundleOutput p) as [src|]; simpl in *; [|done].
    by rewrite lookup_union_r.
  - intros module. rewrite lookup_fmap. unfold options_globals.
    destruct (opt_globals o) as [given|]; simpl.
    + destruct (given !! module) as [global|] eqn:Hg.
      * by erewrite lookup_union_Some_l.
      * by rewrite lookup_union_r.
    + by rewrite lookup_union_r.
Qed.

Lemma umd_globals_precedence_witness :
  let o := {| opt_sourcemap := None; opt_globals := Some {[ "pixi.js" := "MyPIXI" ]};
              opt_production := None; opt_external := None;
              opt_excludedExternals := None; opt_main := None; opt_module := None;
              opt_bundle := None; opt_input := None |} in
  exists cfgs c d table,
    main ts_project o bundle_pkg = Ok cfgs
    /\ c ∈ cfgs /\ output c = OutputObject d
    /\ d !! "globals" = Some (JObj table)
    /\ table !! "pixi.js" = Some (JStr "MyPIXI").
Proof.
  intros o.
  destruct (umd_globals_precedence ts_project o bundle_pkg _ _ _ eq_refl
              (list_elem_of_further _ _ _ (list_elem_of_here _ _)) eq_refl eq_refl)
    as (table & Htable & Hlookup).
  eexists _, _, _, table. split; [reflexivity|].
  split; [apply list_elem_of_further, list_elem_of_here|]. split; [reflexivity|].
  split; [exact Htable | exact (Hlookup "pixi.js")].
Defined.

(** X8. The output list of the first configuration: a cjs descriptor
    when a CommonJS path is configured, then an esm descriptor when an
    ES module path is configured, and nothing else (so the list is
    empty when neither is).  A path is configured by the caller's
    option when that is a non-empty string, and by the manifest field
    otherwise; the file is that path joined to the project folder. *)
Theorem module_outputs_configured h o p cfgs :
  main h o p = Ok cfgs ->
  let configured (given field : option string) :=
    match truthy given with
    | Some path => Some path
    | None => truthy field
    end in
  let descriptor (format : string) (path : option string) :=
    match path with
    | Some path => [(Some (JStr format), Some (JStr (path_join h (projectFolder h) path)))]
    | None => []
    end in
  exists c rest ds,
    cfgs = c :: rest
    /\ output c = OutputArray ds
    /\ (fun d => (d !! "format", d !! "file")) <$> ds =
         descriptor "cjs" (configured (opt_main o) (pkg_main p))
           ++ descriptor "esm" (configured (opt_module o) (pkg_module p)).
Proof.
  intros Hm configured descriptor.
  destruct (main_cases h o p cfgs Hm) as (i & config & _ & -> & Hcase).
  assert (exists rest, cfgs = {| plugins := base_plugins p; external := externals o p;
                                 input := i;
                                 output := OutputArray (module_outputs h o p);
                                 treeshake := None |} :: rest) as [rest ->].
  { destruct (truthy (js_or (opt_bundle o) (pkg_bundle p)));
      cbv zeta in Hcase; subst cfgs; eauto. }
  eexists _, rest, _. split; [reflexivity|]. split; [reflexivity|].
  unfold module_outputs. rewrite fmap_app, !truthy_js_or. subst configured descriptor.
  cbv beta. f_equal.
  - by destruct (truthy (opt_main o)), (truthy (pkg_main p)).
  - by destruct (truthy (opt_module o)), (truthy (pkg_module p)).
Qed.

Lemma module_outputs_configured_witness :
  let o := {| opt_sourcemap := None; opt_globals := None; opt_production := None;
              opt_external := None; opt_excludedExternals := None;
              opt_main := Some "build/index.cjs"; opt_module := Some "";
              opt_bundle := None; opt_input := None |} in
  exists c rest ds,
    main ts_project o module_pkg = Ok (c :: rest)
    /\ output c = OutputArray ds
    /\ (fun d => (d !! "format", d !! "file")) <$> ds =
         [ (Some (JStr "cjs"), Some (JStr "/repo/build/index.cjs"));
           (Some (JStr "esm"), Some (JStr "/repo/lib/bounds.es.js")) ].
Proof.
  intros o.
  destruct (module_outputs_configured ts_project o module_pkg _ eq_refl)
    as (c & rest & ds & Hcfgs & Hout & Hds).
  exists c, rest, ds. rewrite <- Hcfgs. split; [reflexivity|]. split; [exact Hout|].
  exact Hds.
Defined.

(** *** The build time *)

Lemma replace_GMT_cons (ch : ascii) (s : string) :
  ch <> "G"%char -> replace_GMT (String ch s) = String ch (replace_GMT s).
Proof.
  intros Hch. destruct ch as [[] [] [] [] [] [] [] []]; try reflexivity.
  by destruct Hch.
Qed.

Lemma join_lines_cons (line next : string) (lines : list string) :
  join_lines (line :: next :: lines) = line +:+ nl +:+ join_lines (next :: lines).
Proof. reflexivity. Qed.

Lemma join_lines_middle (above : list string) (line : string) (below : list string) :
  above <> [] -> below <> [] ->
  join_lines (above ++ line :: below) =
    join_lines above +:+ nl +:+ line +:+ nl +:+ join_lines below.
Proof.
  intros Habove Hbelow. destruct below as [|b below]; [done|].
  induction above as [|a [|a' above] IH]; [done| |].
  - change ([a] ++ line :: b :: below) with (a :: line :: b :: below).
    by rewrite !join_lines_cons.
  - change ((a :: a' :: above) ++ line :: b :: below)
      with (a :: a' :: (above ++ line :: b :: below)).
    rewrite (join_lines_cons a a').
    change (a' :: (above ++ line :: b :: below))
      with ((a' :: above) ++ line :: b :: below).
    rewrite IH by done. rewrite (join_lines_cons a a' above).
    by rewrite !append_assoc.
Qed.

(** X9. The banner gives the build time with [UTC] for the [GMT] of
    [toUTCString()]: for a time string that ends in [GMT] and has no
    capital G before that, one line of the banner reads
    [ * Compiled <time> UTC]. *)
Theorem compiled_line h p (time : string) :
  toUTCString h = time +:+ "GMT" ->
  (forall ch, ch ∈ list_ascii_of_string time -> ch <> "G"%char) ->
  exists above below,
    banner h p =
      above +:+ nl +:+ (" * Compiled " +:+ time +:+ "UTC") +:+ nl +:+ below.
Proof.
  intros Hclock Hno.
  assert (compiled h = time +:+ "UTC") as Hcompiled.
  { unfold compiled. rewrite Hclock. clear Hclock.
    induction time as [|ch time IH]; [done|].
    change (String ch time +:+ "GMT") with (String ch (time +:+ "GMT")).
    rewrite replace_GMT_cons by (apply Hno, list_elem_of_here).
    rewrite IH; [done|]. intros ch' Hin. by apply Hno, list_elem_of_further. }
  unfold banner. rewrite Hcompiled.
  eexists _, _.
  exact (join_lines_middle
           [ "/* eslint-disable */"; " "; "/*!";
             " * " +:+ pkg_name p +:+ " - v" +:+ pkg_version p ]
           (" * Compiled " +:+ time +:+ "UTC")
           [ " *";
             " * " +:+ pkg_name p +:+ " is licensed under the MIT License.";
             " * http://www.opensource.org/licenses/mit-license";
             " * ";
             " * Copyright 2019-2020, " +:+ pkg_author p +:+ ", All Rights Reserved";
             " */" ]
           ltac:(done) ltac:(done)).
Qed.

Lemma compiled_line_witness :
  exists above below,
    banner ts_project bundle_pkg =
      above +:+ nl +:+ " * Compiled Mon, 02 Nov 2026 10:00:00 UTC" +:+ nl +:+ below.
Proof.
  apply (compiled_line ts_project bundle_pkg "Mon, 02 Nov 2026 10:00:00 " eq_refl).
  intros ch Hin. vm_compute in Hin.
  repeat (apply elem_of_cons in Hin as [-> | Hin]; [discriminate|]).
  by apply elem_of_nil in Hin.
Defined.

End rollup_more.

(** * Further properties of the runner *)

Section runner_more.
Import ApiExtractor.
Implicit Types (h : Host) (o : Options) (env : Setup) (p : Package).
Implicit Types (projectPackages : list Package).
Implicit Types (pkg : gmap string jsval) (pkgs : list (gmap string jsval)).
Implicit Types (cs : option CompilerState) (events : list Event).

(** X10. Without a usable TypeScript configuration, or without the list
    of packages, nothing is done.  When the configuration file (the
    caller's [tsconfigJson], or [tsconfig.json] in the working
    directory) does not exist, when loading it throws, when it names no
    [compilerOptions.outDir], or when [getPackages] fails, [main]
    rejects with the corresponding error, and no line is printed and no
    tool is called. *)
Theorem configuration_errors h o :
  let file := match truthy (tsconfigJson o) with
              | Some given => given
              | None => path_join h (cwd h) "./tsconfig.json"
              end in
  (existsSync h file = false ->
     main h o =
       ([], Rejected (file +:+ " does not exist - a TypeScript configuration file is needed to use @pixi-build-tools/api-extractor-lerna-monorepo!")))
  /\ (forall e, existsSync h file = true -> require_json h file = Throw e ->
        main h o = ([], Rejected e))
  /\ (forall tsconfig,
        existsSync h file = true -> require_json h file = Ok tsconfig ->
        compilerOptions tsconfig ≫= (fun co => truthy (outDir co)) = None ->
        main h o = ([], Rejected (file +:+ " does not specify compilerOptions.outDir")))
  /\ (forall env e, setup h o = Ok env -> getPackages h (cwd h) = Throw e ->
        main h o = ([], Rejected e)).
Proof.
  intros file.
  assert (setup h o =
            if negb (existsSync h file) then
              Throw (file +:+ " does not exist - a TypeScript configuration file is needed to use @pixi-build-tools/api-extractor-lerna-monorepo!")
            else
              match require_json h file with
              | Throw e => Throw e
              | Ok tsconfig =>
                  match compilerOptions tsconfig ≫= (fun co => truthy (outDir co)) with
                  | None => Throw (file +:+ " does not specify compilerOptions.outDir")
                  | Some dir =>
                      Ok {| setup_tsconfigJson := file;
                            setup_outDir := path_join h (cwd h) dir |}
                  end
              end) as Hsetup by reflexivity.
  split; [|split; [|split]].
  - intros Hfile. apply main_Throw. by rewrite Hsetup, Hfile.
  - intros e Hfile Hload. apply main_Throw. by rewrite Hsetup, Hfile, Hload.
  - intros tsconfig Hfile Hload Hdir. apply main_Throw.
    by rewrite Hsetup, Hfile, Hload, Hdir.
  - intros env e. apply main_unlisted.
Qed.

Lemma configuration_errors_witness :
  let h := workspace all_succeed in
  let o := {| tsconfigJson := Some "/repo/tsconfig.build.json";
              showVerboseMessages := None |} in
  main h o =
    ([], Rejected "/repo/tsconfig.build.json does not exist - a TypeScript configuration file is needed to use @pixi-build-tools/api-extractor-lerna-monorepo!").
Proof.
  intros h o. exact (proj1 (configuration_errors h o) eq_refl).
Defined.

(** *** The compiler state *)

Lemma extract_creations h o env cs pkg :
  creations (extract h o env cs pkg).1 =
    match cs, ExtractorConfig_prepare h (prepare_argument h env pkg) with
    | None, Ok _ => [prepare_argument h env pkg]
    | _, _ => []
    end
  /\ head (preparations (extract h o env cs pkg).1) = Some (prepare_argument h env pkg).
Proof.
  pose proof (extract_cases h o env cs pkg) as Hcases. cbv zeta in Hcases.
  destruct (invoke_and_report_invocations h o pkg (prepare_argument h env pkg)
              (default {| created_from := prepare_argument h env pkg |} cs))
    as (_ & Hp & Hc).
  destruct (ExtractorConfig_prepare h _) as [[]|e]; [|rewrite Hcases; by destruct cs].
  destruct cs as [st|]; simpl in Hcases.
  - rewrite Hcases. cbn [fst]. split; [exact Hc | done].
  - destruct (CompilerState_create h _) as [[]|e]; rewrite Hcases; [|done].
    cbn [fst]. split; [|done].
    change (creations (?a :: ?b :: ?c :: ?l)) with (prepare_argument h env pkg :: creations l).
    f_equal. exact Hc.
Qed.

Lemma forEach_shares h o env cs pkgs :
  (creations (forEach h o env cs pkgs).1 =
     match cs, pkgs with
     | None, pkg :: _ =>
         if ExtractorConfig_prepare h (prepare_argument h env pkg) is Ok _
         then [prepare_argument h env pkg] else []
     | _, _ => []
     end)
  /\ head (preparations (forEach h o env cs pkgs).1) = prepare_argument h env <$> head pkgs
  /\ forall cfg v state, invoke cfg v state ∈ (forEach h o env cs pkgs).1 ->
       v = showVerboseMessages o
       /\ match cs with
          | Some shared => state = shared
          | None => creations (forEach h o env cs pkgs).1 = [created_from state]
          end.
Proof.
  revert cs. induction pkgs as [|pkg pkgs IH]; intros cs.
  - split; [by destruct cs|]. split; [done|].
    intros cfg v state Hin. by apply elem_of_nil in Hin.
  - rewrite forEach_cons.
    destruct (extract_creations h o env cs pkg) as [Hcreated Hprepared].
    assert (forall cfg v state, invoke cfg v state ∈ (extract h o env cs pkg).1 ->
              v = showVerboseMessages o
              /\ match cs with
                 | Some shared => state = shared
                 | None => creations (extract h o env cs pkg).1 = [created_from state]
                 end) as Hhere.
    { intros cfg v state Hin.
      apply extract_invoke_inv in Hin as (-> & -> & -> & Hprepare & _).
      split; [done|]. destruct cs; [done|]. by rewrite Hcreated, Hprepare. }
    destruct (extract h o env cs pkg).2 as [cs'|code|e] eqn:Hnext; cbn [fst];
      [|split; [by destruct cs | split; [done | exact Hhere]]..].
    destruct (extract_outcome h o env cs pkg) as [(_ & _ & _ & Hn)|(_ & _ & e & Hn)];
      [|by rewrite Hnext in Hn].
    rewrite Hnext in Hn. destruct (goes_on _); [|done]. injection Hn as ->.
    destruct (IH (Some (default {| created_from := prepare_argument h env pkg |} cs)))
      as (Hnone & _ & Hrest).
    split; [|split].
    + rewrite creations_app, Hcreated, Hnone, app_nil_r. by destruct cs.
    + rewrite preparations_app.
      destruct (preparations (extract h o env cs pkg).1); [done | exact Hprepared].
    + intros cfg v state Hin. apply elem_of_app in Hin as [Hin|Hin].
      * destruct (Hhere cfg v state Hin) as [-> Hstate]. split; [done|].
        destruct cs; [done|]. by rewrite creations_app, Hnone, app_nil_r.
      * destruct (Hrest cfg v state Hin) as [-> ->]. split; [done|].
        destruct cs as [shared|]; [done|].
        rewrite creations_app, Hnone, app_nil_r, Hcreated.
        destruct (extract_outcome h o env None pkg)
          as [([Hprepare _] & _)|(_ & _ & e & Hfail)];
          [by rewrite Hprepare | by rewrite Hnext in Hfail].
Qed.

(** X11. One compiler state serves the whole run:
    [CompilerState.create] is called at most once, for the first package
    whose configuration is prepared, and every call of [Extractor.invoke]
    receives the state made by that call together with the caller's
    [showVerboseMessages]. *)
Theorem compiler_state_shared h o :
  (creations (main h o).1 = []
   \/ exists cfg, creations (main h o).1 = [cfg]
        /\ head (preparations (main h o).1) = Some cfg)
  /\ forall cfg v state, invoke cfg v state ∈ (main h o).1 ->
       v = showVerboseMessages o
       /\ creations (main h o).1 = [created_from state].
Proof.
  destruct (main h o).1 as [|event events] eqn:Htrace.
  { split; [by left|]. intros cfg v state Hin. by apply elem_of_nil in Hin. }
  rewrite <- Htrace.
  assert ((main h o).1 <> []) as Hne by by rewrite Htrace.
  clear Htrace event events.
  destruct (main_started h o Hne) as (env & pkgs & Hs & Hl).
  rewrite (main_Ok h o env pkgs Hs Hl). cbn [fst].
  destruct (forEach_shares h o env None (packageJsons h pkgs)) as (Hcreated & Hprepared & Hstate).
  split; [|exact Hstate].
  rewrite Hcreated, Hprepared. destruct (packageJsons h pkgs) as [|pkg rest]; [by left|].
  destruct (ExtractorConfig_prepare h _); [right; eauto | by left].
Qed.

(** *** How a run ends *)




(** X13. When the call made for a package returns a result that
    succeeded, the runner prints the "completed successfully" line (on
    the error stream, like the counts of a failed extraction), whatever
    counts the result carries, and goes on with the packages that
    follow, handing them the same compiler state. *)
Theorem successful_extraction h o env projectPackages pre pkg post events cs r :
  setup h o = Ok env ->
  getPackages h (cwd h) = Ok projectPackages ->
  packageJsons h projectPackages = pre ++ pkg :: post ->
  forEach h o env None pre = (events, Continue cs) ->
  calls_extractor h env cs pkg ->
  let cfg := prepare_argument h env pkg in
  let state := default {| created_from := cfg |} cs in
  Extractor_invoke h cfg (showVerboseMessages o) state = Returned r ->
  succeeded r = true ->
  exists before,
    main h o =
      (before ++ [ invoke cfg (showVerboseMessages o) state;
                   console_error (to_display (prop pkg "name")
                                    +:+ ": completed successfully!") ]
         ++ (forEach h o env (Some state) post).1,
       status_of (forEach h o env (Some state) post).2).
Proof.
  intros Hs Hl Hsel Hpre Hcalls cfg state Hret Hok.
  pose proof (extract_calls h o env cs pkg Hcalls) as Hstep. cbv zeta in Hstep.
  pose proof (invoke_and_report_cases h o pkg cfg state) as Hreport.
  rewrite Hret, Hok in Hreport. fold cfg in Hstep. fold state in Hstep.
  rewrite Hreport in Hstep. cbn [fst snd] in Hstep.
  exists (events ++ [header pkg; prepare cfg] ++ if cs is Some _ then [] else [create cfg]).
  rewrite (main_Ok h o env projectPackages Hs Hl), Hsel, forEach_app, Hpre.
  cbn [fst snd]. rewrite forEach_cons, Hstep. cbn [fst snd].
  by rewrite <- !app_assoc.
Qed.

Lemma successful_extraction_witness :
  let h := workspace all_succeed in
  let env := {| setup_tsconfigJson := "/repo/tsconfig.json";
                setup_outDir := "/repo/compiled" |} in
  let cfg := prepare_argument h env (with_location pkg_a) in
  let state := {| created_from := cfg |} in
  exists before,
    main h no_options =
      (before ++ [ invoke cfg None state;
                   console_error "a: completed successfully!" ]
         ++ (forEach h no_options env (Some state) [with_location pkg_b]).1,
       status_of (forEach h no_options env (Some state) [with_location pkg_b]).2).
Proof.
  intros h env cfg state.
  exact (successful_extraction h no_options env [pkg_a; pkg_docs; pkg_b] []
           (with_location pkg_a) [with_location pkg_b] [] None
           {| succeeded := true; errorCount := 0; warningCount := 0 |}
           eq_refl eq_refl eq_refl eq_refl (conj eq_refl (fun _ => eq_refl))
           eq_refl eq_refl).
Defined.

Lemma setup_Ok_inv h o env :
  setup h o = Ok env ->
  let file := match truthy (tsconfigJson o) with
              | Some given => given
              | None => path_join h (cwd h) "./tsconfig.json"
              end in
  existsSync h file = true
  /\ exists tsconfig dir,
      require_json h file = Ok tsconfig
      /\ compilerOptions tsconfig ≫= (fun co => truthy (outDir co)) = Some dir
      /\ env = {| setup_tsconfigJson := file; setup_outDir := path_join h (cwd h) dir |}.
Proof.
  intros Hs file. unfold setup in Hs.
  change (default (path_join h (cwd h) "./tsconfig.json") (truthy (tsconfigJson o)))
    with file in Hs.
  destruct (existsSync h file); [|discriminate Hs]. split; [done|]. simpl in Hs.
  destruct (require_json h file) as [tsconfig|e]; [|discriminate Hs].
  destruct (compilerOptions tsconfig ≫= _) as [dir|] eqn:Hdir; [|discriminate Hs].
  exists tsconfig, dir. split; [done|]. split; [done|]. by injection Hs as <-.
Qed.

(** X14. What the extractor is asked to do.  Every call is made for a
    listed package that has a [src/index.ts]: its folder is the project
    and package folder, the manifest copy with the location is the
    [packageJson], the declarations are read from
    [<outDir>/<folder relative to the working directory>/src/index.d.ts]
    and rolled up into [index.d.ts] in the package folder, with the
    configuration file that [main] found; [bundledPackages] is the
    manifest's when that is truthy and an empty list otherwise. *)
Theorem extraction_targets h o (cfg : ExtractorConfig) :
  cfg ∈ invocations (main h o).1 ->
  exists projectPackages p tsconfig dir,
    getPackages h (cwd h) = Ok projectPackages
    /\ p ∈ projectPackages
    /\ has_index h p = true
    /\ require_json h (tsconfigFilePath cfg) = Ok tsconfig
    /\ compilerOptions tsconfig ≫= (fun co => truthy (outDir co)) = Some dir
    /\ tsconfigFilePath cfg =
         match truthy (tsconfigJson o) with
         | Some given => given
         | None => path_join h (cwd h) "./tsconfig.json"
         end
    /\ projectFolder cfg = location p
    /\ packageFolder cfg = location p
    /\ packageJson cfg = <["location" := JStr (location p)]> (manifest p)
    /\ packageJsonFullPath cfg = path_join h (location p) "./package.json"
    /\ mainEntryPointFilePath cfg =
         path_join h
           (path_join h (path_join h (cwd h) dir) (path_relative h (cwd h) (location p)))
           "./src/index.d.ts"
    /\ untrimmedFilePath cfg = path_join h (location p) "index.d.ts"
    /\ bundledPackages cfg =
         match manifest p !! "bundledPackages" with
         | Some listed => if js_truthy listed then listed else JArr []
         | None => JArr []
         end.
Proof.
  intros Hin. destruct (main_started h o) as (env & pkgs & Hs & Hl).
  { intros Hnil. rewrite Hnil in Hin. by apply elem_of_nil in Hin. }
  rewrite (main_Ok h o env pkgs Hs Hl) in Hin. cbn [fst] in Hin.
  destruct (forEach_invocations_prefix h o env None (packageJsons h pkgs)) as [later Heq].
  assert (cfg ∈ prepare_argument h env <$> packageJsons h pkgs) as Hsel
    by (rewrite Heq; apply elem_of_app; by left).
  clear Hin Heq. rename Hsel into Hin.
  rewrite packageJsons_selected, <- list_fmap_compose in Hin.
  apply list_elem_of_fmap in Hin as (p & -> & Hp).
  rewrite list_elem_of_In in Hp. apply filter_In in Hp as [Hp Hindex].
  rewrite <- list_elem_of_In in Hp.
  destruct (setup_Ok_inv h o env Hs) as (_ & tsconfig & dir & Hload & Hdir & ->).
  exists pkgs, p, tsconfig, dir. simpl. unfold with_location, prop.
  rewrite lookup_insert_eq, lookup_insert_ne by done. simpl.
  repeat (split; [done|]).
  by destruct (manifest p !! "bundledPackages").
Qed.

Lemma extraction_targets_witness :
  let h := workspace all_succeed in
  let cfg := prepare_argument h {| setup_tsconfigJson := "/repo/tsconfig.json";
                                   setup_outDir := "/repo/compiled" |}
               (with_location pkg_b) in
  exists p dir,
    has_index h p = true
    /\ mainEntryPointFilePath cfg =
         path_join h
           (path_join h (path_join h (cwd h) dir) (path_relative h (cwd h) (location p)))
           "./src/index.d.ts"
    /\ untrimmedFilePath cfg = path_join h (location p) "index.d.ts".
Proof.
  intros h cfg.
  destruct (extraction_targets h no_options cfg)
    as (pkgs & p & tsconfig & dir & _ & _ & Hindex & Hrest).
  - vm_compute. apply list_elem_of_further, list_elem_of_here.
  - exists p, dir. split; [assumption|].
    destruct Hrest as (_ & _ & _ & _ & _ & _ & _ & Hmain & Hrollup & _). by split.
Defined.

(** X15. A workspace in which no package has a [src/index.ts] (an empty
    workspace too) is not an error: once the configuration and the
    packages are found the run prints nothing, calls no tool and
    resolves. *)
Theorem nothing_to_extract h o env projectPackages :
  setup h o = Ok env ->
  getPackages h (cwd h) = Ok projectPackages ->
  (forall p, p ∈ projectPackages -> has_index h p = false) ->
  main h o = ([], Resolved).
Proof.
  intros Hs Hl Hnone. rewrite (main_Ok h o env _ Hs Hl), packageJsons_selected.
  assert (List.filter (has_index h) projectPackages = []) as ->; [|done].
  clear Hs Hl. induction projectPackages as [|p ps IH]; [done|]. simpl.
  rewrite (Hnone p) by apply list_elem_of_here.
  apply IH. intros q Hq. by apply Hnone, list_elem_of_further.
Qed.

Lemma nothing_to_extract_witness :
  main docs_workspace no_options = ([], Resolved).
Proof.
  apply (nothing_to_extract docs_workspace no_options
           {| setup_tsconfigJson := "/repo/tsconfig.json";
              setup_outDir := "/repo/compiled" |} [pkg_docs] eq_refl eq_refl).
  intros p Hp. apply list_elem_of_singleton in Hp as ->. reflexivity.
Defined.



End runner_more.
